(** * convex-viz: the schema-to-Mermaid compiler and its broadcast loop

    A shallow embedding of [generateMermaidFromSchema], its local helper
    [getFieldType] and [broadcastMermaid], together with the properties
    that the design document states about them.

    The schema handed to the compiler is typed [any] in the source, so the
    embedding works over a small model of JavaScript values and follows
    the dynamic checks of the source one by one: property reads on
    [undefined]/[null] throw, truthiness decides the guards, and template
    literals stringify whatever they are given. *)

From Stdlib Require Import List String Ascii ZArith Lia Bool.
From Stdlib Require Import DecimalString DecimalZ.
Import ListNotations.
Open Scope string_scope.

(** ** JavaScript values *)

(** Numbers are modelled at their integer values, in the range where
    [ToString] is the plain decimal numeral, plus [NaN]; the program uses
    a number only through truthiness and [ToString].  The property
    list of an object is kept in own-property enumeration order, the order
    [Object.entries] yields. *)
#[warnings="-register-all"]
Inductive value : Type :=
| VUndefined
| VNull
| VBoolean (b : bool)
| VNumber (n : Z)
| VNaN
| VBigInt (n : Z)
| VString (s : string)
| VArray (elems : list value)
| VObject (props : list (string * value)).

(** Thrown values: an [Error] instance with its [name] and [message], or
    any other value, which a schema module can throw while it loads. *)
Inductive error : Type :=
| mkError (name message : string)
| thrownValue (v : value).

Definition TypeError (msg : string) : error := mkError "TypeError" msg.

(** Completion of an evaluation: a normal result or a throw.  An [async]
    function is modelled by the completion its promise settles with. *)
Inductive completion (A : Type) : Type :=
| Normal (a : A)
| Throw (e : error).
Arguments Normal {A} a.
Arguments Throw {A} e.

Definition bind {A B} (m : completion A) (k : A -> completion B) : completion B :=
  match m with
  | Normal a => k a
  | Throw e => Throw e
  end.

Notation "x <- m ;; k" := (bind m (fun x => k))
  (at level 61, m at next level, right associativity).

Fixpoint foldM {A B} (f : A -> B -> completion A) (a : A) (l : list B) : completion A :=
  match l with
  | [] => Normal a
  | b :: l' => a' <- f a b;; foldM f a' l'
  end.

(** Evaluation under a recursion budget: [None] when the budget ran out. *)
Definition fuelled (A : Type) : Type := option (completion A).

Definition run {A} (c : completion A) : fuelled A := Some c.

Definition bindF {A B} (m : fuelled A) (k : A -> fuelled B) : fuelled B :=
  match m with
  | None => None
  | Some (Throw e) => Some (Throw e)
  | Some (Normal a) => k a
  end.

Notation "x <~ m ;; k" := (bindF m (fun x => k))
  (at level 61, m at next level, right associativity).

Fixpoint mapF {A B} (f : A -> fuelled B) (l : list A) : fuelled (list B) :=
  match l with
  | [] => run (Normal [])
  | a :: l' => b <~ f a;; bs <~ mapF f l';; run (Normal (b :: bs))
  end.

Definition nl : string := String "010"%char "".

(** Decimal rendering of an integer, as [Number.prototype.toString] and
    [BigInt.prototype.toString] give it. *)
Definition decimal (n : Z) : string := NilZero.string_of_int (Z.to_int n).

(** All the strings of a list, one after the other. *)
Definition flatten (l : list string) : string := fold_right append "" l.

(** [ToString], the conversion a template literal applies. *)
Fixpoint toStr (v : value) : string :=
  match v with
  | VUndefined => "undefined"
  | VNull => "null"
  | VBoolean b => if b then "true" else "false"
  | VNumber n => decimal n
  | VNaN => "NaN"
  | VBigInt n => decimal n
  | VString s => s
  | VArray elems =>
      String.concat ","
        ((fix each (l : list value) : list string :=
            match l with
            | [] => []
            | VUndefined :: l' => "" :: each l'
            | VNull :: l' => "" :: each l'
            | x :: l' => toStr x :: each l'
            end) elems)
  | VObject _ => "[object Object]"
  end.

(** [ToBoolean]. *)
Definition truthy (v : value) : bool :=
  match v with
  | VUndefined | VNull | VNaN => false
  | VBoolean b => b
  | VNumber n | VBigInt n => negb (n =? 0)%Z
  | VString s => negb (s =? "")
  | VArray _ | VObject _ => true
  end.

Fixpoint lookup (key : string) (props : list (string * value)) : value :=
  match props with
  | [] => VUndefined
  | (k, x) :: props' => if k =? key then x else lookup key props'
  end.

(** [v.key] for the property names the program reads ([default], [tables],
    [validator], [fields], [kind], [tableName], [value], [element], [key],
    [members], [message]): none of them is defined on a primitive wrapper
    or on [Array.prototype], so only an object can hold one. *)
Definition getProp (v : value) (key : string) : completion value :=
  match v with
  | VUndefined | VNull =>
      Throw (TypeError ("Cannot read properties of " ++ toStr v
                        ++ " (reading '" ++ key ++ "')"))
  | VObject props => Normal (lookup key props)
  | _ => Normal VUndefined
  end.

Fixpoint indexed (i : nat) (l : list value) : list (string * value) :=
  match l with
  | [] => []
  | x :: l' => (decimal (Z.of_nat i), x) :: indexed (S i) l'
  end.

Fixpoint chars (s : string) : list value :=
  match s with
  | EmptyString => []
  | String c s' => VString (String c "") :: chars s'
  end.

(** [Object.entries(v)]. *)
Definition Object_entries (v : value) : completion (list (string * value)) :=
  match v with
  | VUndefined | VNull => Throw (TypeError "Cannot convert undefined or null to object")
  | VObject props => Normal props
  | VArray elems => Normal (indexed 0 elems)
  | VString s => Normal (indexed 0 (chars s))
  | _ => Normal []
  end.

(** [s.toUpperCase()] on the ASCII range: table names are identifiers. *)
Definition upperChar (c : ascii) : ascii :=
  let n := nat_of_ascii c in
  if (97 <=? n)%nat && (n <=? 122)%nat then ascii_of_nat (n - 32) else c.

Fixpoint toUpperCase (s : string) : string :=
  match s with
  | EmptyString => EmptyString
  | String c s' => String (upperChar c) (toUpperCase s')
  end.

(** [a.join(sep)]: [undefined] and [null] elements render as the empty
    string. *)
Definition Array_join (sep : string) (a : list value) : string :=
  String.concat sep
    (map (fun x => match x with VUndefined | VNull => "" | _ => toStr x end) a).

(** [a.map(f)] for a callback that may throw; [a] is whatever value the
    receiver expression [recv] produced. *)
Definition Array_map (recv : string) (f : value -> fuelled value) (a : value)
  : fuelled (list value) :=
  match a with
  | VUndefined | VNull =>
      run (Throw (TypeError ("Cannot read properties of " ++ toStr a
                             ++ " (reading 'map')")))
  | VArray elems => mapF f elems
  | _ => run (Throw (TypeError (recv ++ ".map is not a function")))
  end.

(** ** The validator classifier: [getFieldType] *)

(** [validator.kind || "unknown"], the [default] branch of the switch. *)
Definition default_label (kind : value) : value :=
  if truthy kind then kind else VString "unknown".

(** The recursion of the source follows property reads, so it is written
    with a recursion budget.  [getFieldType_rec_enough] below shows that a
    budget above the height of the validator always suffices. *)
Fixpoint getFieldType_rec (fuel : nat) (validator : value) : fuelled value :=
  match fuel with
  | O => None
  | S fuel' =>
    if negb (truthy validator) then run (Normal (VString "unknown")) else
    kind <~ run (getProp validator "kind");;
    match kind with
    | VString kind =>
      if kind =? "string" then run (Normal (VString "string"))
      else if kind =? "id" then
        tableName <~ run (getProp validator "tableName");;
        run (Normal (VString ("id(" ++ toStr tableName ++ ")")))
      else if kind =? "float64" then run (Normal (VString "number"))
      else if kind =? "int64" then run (Normal (VString "int"))
      else if kind =? "boolean" then run (Normal (VString "boolean"))
      else if kind =? "bytes" then run (Normal (VString "bytes"))
      else if kind =? "null" then run (Normal (VString "null"))
      else if kind =? "any" then run (Normal (VString "any"))
      else if kind =? "object" then run (Normal (VString "object"))
      else if kind =? "literal" then
        v <~ run (getProp validator "value");;
        run (Normal (VString (toStr v)))
      else if kind =? "array" then
        element <~ run (getProp validator "element");;
        t <~ getFieldType_rec fuel' element;;
        run (Normal (VString (toStr t ++ "[]")))
      else if kind =? "record" then
        key <~ run (getProp validator "key");;
        k <~ getFieldType_rec fuel' key;;
        val <~ run (getProp validator "value");;
        v <~ getFieldType_rec fuel' val;;
        run (Normal (VString ("record(" ++ toStr k ++ "_" ++ toStr v ++ ")")))
      else if kind =? "union" then
        members <~ run (getProp validator "members");;
        ts <~ Array_map "validator.members" (getFieldType_rec fuel') members;;
        run (Normal (VString ("union(" ++ Array_join "_or_" ts ++ ")")))
      else run (Normal (default_label (VString kind)))
    | _ => run (Normal (default_label kind))
    end
  end.

Definition maxHeight {A} (h : A -> nat) (l : list A) : nat :=
  fold_right (fun x m => Nat.max (h x) m) 0%nat l.

Fixpoint height (v : value) : nat :=
  match v with
  | VArray elems => S (maxHeight height elems)
  | VObject props =>
      S ((fix go (l : list (string * value)) : nat :=
            match l with
            | [] => 0%nat
            | (_, x) :: l' => Nat.max (height x) (go l')
            end) props)
  | _ => 0%nat
  end.

(** [getFieldType(validator)].  The budget is one more than the height of
    the validator; the [RangeError] branch is never taken
    ([getFieldType_rec_enough]). *)
Definition getFieldType (validator : value) : completion value :=
  match getFieldType_rec (S (height validator)) validator with
  | Some c => c
  | None => Throw (mkError "RangeError" "Maximum call stack size exceeded")
  end.

(** ** The diagram compiler: the body of [generateMermaidFromSchema] *)

(** An element of the local [relationships] array.  [to] holds
    [validator.tableName] as it was read, whatever its type. *)
Record relationship : Type := mkRel { from : string; to : value; field : string }.

(** [v === s] for a string constant [s]. *)
Definition strictEq (v : value) (s : string) : bool :=
  match v with
  | VString s' => s' =? s
  | _ => false
  end.

(** Body of the inner loop, lines 82-90: one field of one table. *)
Definition fieldStep (tableName : string) (acc : string * list relationship)
    (entry : string * value) : completion (string * list relationship) :=
  let '(mermaid, relationships) := acc in
  let '(fieldName, validator) := entry in
  typeStr <- getFieldType validator;;
  let mermaid := mermaid ++ "    " ++ toStr typeStr ++ " " ++ fieldName ++ nl in
  kind <- getProp validator "kind";;
  if strictEq kind "id" then
    tableName' <- getProp validator "tableName";;
    if truthy tableName' then
      to' <- getProp validator "tableName";;
      Normal (mermaid, (relationships ++ [mkRel tableName to' fieldName])%list)
    else Normal (mermaid, relationships)
  else Normal (mermaid, relationships).

(** Body of the outer loop, lines 78-93: one table. *)
Definition tableStep (acc : string * list relationship) (entry : string * value)
  : completion (string * list relationship) :=
  let '(mermaid, relationships) := acc in
  let '(tableName, tableDef) := entry in
  let mermaid := mermaid ++ toUpperCase tableName ++ " {" ++ nl in
  validator <- getProp tableDef "validator";;
  fields <- getProp validator "fields";;
  acc' <- (if truthy fields then
             entries <- Object_entries fields;;
             foldM (fieldStep tableName) (mermaid, relationships) entries
           else Normal (mermaid, relationships));;
  Normal (fst acc' ++ "}" ++ nl, snd acc').

(** Body of the last loop, line 96: [rel.to.toUpperCase()] exists only on
    a string. *)
Definition relStep (mermaid : string) (rel : relationship) : completion string :=
  match to rel with
  | VString s =>
      Normal (mermaid ++ toUpperCase s ++ " ||--o{ " ++ toUpperCase (from rel)
              ++ " : " ++ field rel ++ nl)
  | _ => Throw (TypeError "rel.to.toUpperCase is not a function")
  end.

(** Lines 55-98: from [schema.tables] to [return mermaid].  The local
    [relationships] array is returned beside the text so that it can be
    spoken about. *)
Definition compileSchema (schema : value) : completion (string * list relationship) :=
  tables <- getProp schema "tables";;
  let mermaid := "erDiagram" ++ nl in
  entries <- Object_entries tables;;
  acc <- foldM tableStep (mermaid, []) entries;;
  mermaid <- foldM relStep (fst acc) (snd acc);;
  Normal (mermaid, snd acc).

(** ** The loader and the whole of [generateMermaidFromSchema] *)

(** What one invocation finds around it: the result of
    [pathToFileURL(p).href], the reading of [Date.now()] and the module
    loader behind [import(url)], which settles with a module namespace
    object or rejects. *)
Record Env : Type := mkEnv {
  pathToFileURL_href : string -> string;
  Date_now : Z;
  import : string -> completion value
}.

Definition schemaUrl (env : Env) (schemaFilePath : string) : string :=
  pathToFileURL_href env schemaFilePath ++ "?update=" ++ toStr (VNumber (Date_now env)).

(** [err.message] on whatever was thrown: reading it from [undefined] or
    [null] throws. *)
Definition readMessage (err : error) : completion value :=
  match err with
  | mkError _ message => Normal (VString message)
  | thrownValue v => getProp v "message"
  end.

(** [String(err)]: [Error.prototype.toString] for an [Error] instance,
    [ToString] for any other value. *)
Definition errorToString (err : error) : string :=
  match err with
  | mkError name message =>
      if message =? "" then name
      else if name =? "" then message
      else name ++ ": " ++ message
  | thrownValue v => toStr v
  end.

(** The [catch] clause, line 100: the [Error] it builds, unless reading
    [err.message] throws first. *)
Definition wrapError (err : error) : completion error :=
  message <- readMessage err;;
  Normal (mkError "Error"
            ("Failed to load or parse schema: "
             ++ (if truthy message then toStr message else errorToString err))).

Definition tryCatch {A} (body : completion A) (handler : error -> completion A)
  : completion A :=
  match body with
  | Normal a => Normal a
  | Throw e => handler e
  end.

Definition generateMermaidFromSchema (env : Env) (schemaFilePath : string)
  : completion string :=
  tryCatch
    (schemaModule <- import env (schemaUrl env schemaFilePath);;
     schema <- getProp schemaModule "default";;
     r <- compileSchema schema;;
     Normal (fst r))
    (fun err => wrapped <- wrapError err;; Throw wrapped).

(** ** The broadcast hub: [broadcastMermaid] *)

(** A client of the WebSocket server: its identity in [wss.clients] and
    its [readyState] (0 connecting, 1 open, 2 closing, 3 closed). *)
Record WebSocket : Type := mkWebSocket { socket : nat; readyState : Z }.

(** The effect of [client.send(data)]: one more entry in the log of
    messages handed to the transport. *)
Definition send (log : list (nat * string)) (client : WebSocket) (data : string)
  : list (nat * string) :=
  (log ++ [(socket client, data)])%list.

(** [broadcastMermaid], lines 213-220, started on a log of earlier sends;
    [clients] lists [wss.clients] in iteration order. *)
Definition broadcastMermaid (env : Env) (schemaFilePath : string)
    (clients : list WebSocket) (log : list (nat * string))
  : completion (list (nat * string)) :=
  mermaid <- generateMermaidFromSchema env schemaFilePath;;
  Normal (fold_left
            (fun log client =>
               if (readyState client =? 1)%Z then send log client mermaid else log)
            clients log).

(** ** The data model: typed validators and schemas *)

(** The value carried by a literal validator. *)
Inductive literal : Type :=
| LString (s : string)
| LNumber (n : Z)
| LBigInt (n : Z)
| LBoolean (b : bool).

(** The kinds [getFieldType] has a [case] for. *)
Definition knownKinds : list string :=
  ["string"; "id"; "float64"; "int64"; "boolean"; "bytes"; "null"; "any";
   "object"; "literal"; "array"; "record"; "union"].

Definition isKnownKind (kind : string) : bool := existsb (String.eqb kind) knownKinds.

(** The variants of a field validator.  An unrecognized kind carries its
    raw kind string, which is none of the known ones; [v_kindless] is a
    validator object without a kind. *)
#[warnings="-register-all"]
Inductive FieldValidator : Type :=
| v_string
| v_float64
| v_int64
| v_boolean
| v_bytes
| v_null
| v_any
| v_object
| v_id (tableName : string)
| v_literal (value : literal)
| v_array (element : FieldValidator)
| v_record (key value : FieldValidator)
| v_union (members : list FieldValidator)
| v_unrecognized (kind : string) (Hkind : isKnownKind kind = false)
| v_kindless.

(** The variants that carry no nested validator. *)
Definition atomic (fv : FieldValidator) : bool :=
  match fv with
  | v_array _ | v_record _ _ | v_union _ => false
  | _ => true
  end.

Definition TableDefinition : Type := list (string * FieldValidator).
Definition Schema : Type := list (string * TableDefinition).

Definition encodeLiteral (l : literal) : value :=
  match l with
  | LString s => VString s
  | LNumber n => VNumber n
  | LBigInt n => VBigInt n
  | LBoolean b => VBoolean b
  end.

(** The validator object of a variant, with the properties the compiler
    reads. *)
Fixpoint encode (fv : FieldValidator) : value :=
  match fv with
  | v_string => VObject [("kind", VString "string")]
  | v_float64 => VObject [("kind", VString "float64")]
  | v_int64 => VObject [("kind", VString "int64")]
  | v_boolean => VObject [("kind", VString "boolean")]
  | v_bytes => VObject [("kind", VString "bytes")]
  | v_null => VObject [("kind", VString "null")]
  | v_any => VObject [("kind", VString "any")]
  | v_object => VObject [("kind", VString "object")]
  | v_id t => VObject [("kind", VString "id"); ("tableName", VString t)]
  | v_literal l => VObject [("kind", VString "literal"); ("value", encodeLiteral l)]
  | v_array e => VObject [("kind", VString "array"); ("element", encode e)]
  | v_record k v =>
      VObject [("kind", VString "record"); ("key", encode k); ("value", encode v)]
  | v_union ms => VObject [("kind", VString "union"); ("members", VArray (map encode ms))]
  | v_unrecognized k _ => VObject [("kind", VString k)]
  | v_kindless => VObject []
  end.

Definition encodeFields (fields : TableDefinition) : list (string * value) :=
  map (fun entry => (fst entry, encode (snd entry))) fields.

(** A table definition: its [validator] is an object validator holding the
    [fields]. *)
Definition encodeTable (fields : TableDefinition) : value :=
  VObject [("validator",
            VObject [("kind", VString "object");
                     ("fields", VObject (encodeFields fields))])].

Definition encodeTables (S : Schema) : list (string * value) :=
  map (fun entry => (fst entry, encodeTable (snd entry))) S.

(** The schema object: what the default export of a schema module is. *)
Definition encodeSchema (S : Schema) : value :=
  VObject [("tables", VObject (encodeTables S))].

(** *** The labelling and layout rules, in closed form *)

(** The label rules of the design (§4.1) on typed validators;
    [getFieldType_encode] relates them to the code. *)
Fixpoint label (fv : FieldValidator) : string :=
  match fv with
  | v_string => "string"
  | v_float64 => "number"
  | v_int64 => "int"
  | v_boolean => "boolean"
  | v_bytes => "bytes"
  | v_null => "null"
  | v_any => "any"
  | v_object => "object"
  | v_id t => "id(" ++ t ++ ")"
  | v_literal l => toStr (encodeLiteral l)
  | v_array e => label e ++ "[]"
  | v_record k v => "record(" ++ label k ++ "_" ++ label v ++ ")"
  | v_union ms => "union(" ++ String.concat "_or_" (map label ms) ++ ")"
  | v_unrecognized k _ => if k =? "" then "unknown" else k
  | v_kindless => "unknown"
  end.

Definition fieldLine (entry : string * FieldValidator) : string :=
  "    " ++ label (snd entry) ++ " " ++ fst entry ++ nl.

Definition entityBlock (entry : string * TableDefinition) : string :=
  toUpperCase (fst entry) ++ " {" ++ nl
  ++ flatten (map fieldLine (snd entry)) ++ "}" ++ nl.

Definition entityBlocks (S : Schema) : string :=
  flatten (map entityBlock S).

(** The relationship a field gives rise to: one for an identifier
    reference with a non-empty table name, none otherwise. *)
Definition fieldRelationships (tableName : string) (entry : string * FieldValidator)
  : list relationship :=
  match snd entry with
  | v_id t => if t =? "" then [] else [mkRel tableName (VString t) (fst entry)]
  | _ => []
  end.

Definition tableRelationships (entry : string * TableDefinition) : list relationship :=
  flat_map (fieldRelationships (fst entry)) (snd entry).

Definition schemaRelationships (S : Schema) : list relationship :=
  flat_map tableRelationships S.

(** The line of a relationship between two named tables. *)
Definition relationshipLine (referenced referencing fieldName : string) : string :=
  toUpperCase referenced ++ " ||--o{ " ++ toUpperCase referencing
  ++ " : " ++ fieldName ++ nl.

Definition relationshipLines (rels : list relationship) : string :=
  flatten
    (map (fun r => relationshipLine (toStr (to r)) (from r) (field r)) rels).

(** [part] occurs in [text]. *)
Definition occursIn (part text : string) : Prop :=
  exists before after, text = before ++ part ++ after.

(** Messages of a log that went to one socket, oldest first. *)
Definition sentTo (s : nat) (log : list (nat * string)) : list string :=
  map snd (filter (fun e => Nat.eqb (fst e) s) log).

(** [schema.tables] is missing: absent, [null], or unreadable because the
    schema itself is [undefined] or [null]. *)
Definition tablesMissing (schema : value) : Prop :=
  match getProp schema "tables" with
  | Normal VUndefined | Normal VNull | Throw _ => True
  | Normal _ => False
  end.

(** The guard of line 84 held when the relationship was recorded. *)
Definition refersToTable (r : relationship) : Prop := truthy (to r) = true.

(** The identifier-reference fields of a schema, as (table, field,
    referenced table), in declaration order. *)
Definition idReferences (S : Schema) : list (string * string * string) :=
  flat_map
    (fun table =>
       flat_map
         (fun entry =>
            match snd entry with
            | v_id t => [(fst table, fst entry, t)]
            | _ => []
            end)
         (snd table))
    S.

(** The schema of the repository's [test-schema.ts]. *)
Definition testSchema : Schema :=
  [("messages", [("body", v_string); ("user", v_id "users"); ("createdAt", v_float64)]);
   ("users", [("name", v_string); ("tokenIdentifier", v_string)])].

(** ** The command line, lines 25-42 and 104 *)

(** [a.includes(x)] on an array of strings. *)
Definition includes (a : list string) (x : string) : bool := existsb (String.eqb x) a.

(** [s.startsWith(p)]. *)
Definition startsWith (s p : string) : bool := String.prefix p s.

(** Lines 31-35: [process.argv[2]], replaced by the default when it is
    absent, empty or starts with two dashes. *)
Definition schemaFilePath (argv : list string) : string :=
  match nth_error argv 2 with
  | None => "convex/schema.ts"
  | Some p => if (p =? "") || startsWith p "--" then "convex/schema.ts" else p
  end.

Definition printDiagramFlag (argv : list string) : bool := includes argv "--print-diagram".

(** What the top level of the script decides to do. *)
Inductive startup : Type :=
| ExitHelp
| ExitNotFound (path : string)
| PrintDiagram (path : string)
| Serve (path : string).

(** The top level of the script, given [process.argv] and [existsSync]. *)
Definition cli (argv : list string) (existsSync : string -> bool) : startup :=
  if includes argv "--help" then ExitHelp
  else if negb (existsSync (schemaFilePath argv)) then ExitNotFound (schemaFilePath argv)
  else if printDiagramFlag argv then PrintDiagram (schemaFilePath argv)
  else Serve (schemaFilePath argv).

(** The argument of [process.exit] on the paths that exit at once. *)
Definition exitCode (s : startup) : option Z :=
  match s with
  | ExitHelp => Some 0%Z
  | ExitNotFound _ => Some 1%Z
  | PrintDiagram _ | Serve _ => None
  end.

Definition esc : string := String "027"%char "".

(** Line 11. *)
Definition red (msg : string) : string := esc ++ "[31m" ++ msg ++ esc ++ "[0m".

(** Lines 105-112: what is logged to standard output, what to standard
    error, and the exit code.  A [Throw] is the [catch] callback itself
    throwing, which leaves the process without an exit code. *)
Definition printDiagram (env : Env) (path : string)
  : completion (list string * list string * Z) :=
  match generateMermaidFromSchema env path with
  | Normal mermaid =>
      Normal ([nl ++ "--- Mermaid ER Diagram ---" ++ nl; mermaid], [], 0%Z)
  | Throw err =>
      message <- readMessage err;;
      Normal ([], [red (nl ++ "Error: " ++ toStr message ++ nl)], 1%Z)
  end.

(** ** Static files, lines 115-131 *)

(** [s.split(sep)] for a separator of one character. *)
Fixpoint String_split (sep : ascii) (s : string) : list string :=
  match s with
  | EmptyString => [""]
  | String c s' =>
      if Ascii.eqb c sep then "" :: String_split sep s'
      else match String_split sep s' with
           | [] => [String c ""]
           | seg :: rest => String c seg :: rest
           end
  end.

(** Lines 119-125: [path.split(".").pop()] and the type chosen from it. *)
Definition contentTypeOf (path : string) : string :=
  let ext := last (String_split "."%char path) "" in
  if ext =? "html" then "text/html"
  else if ext =? "js" then "application/javascript"
  else if ext =? "css" then "text/css"
  else if ext =? "svg" then "image/svg+xml"
  else "application/octet-stream".

(** [serveStaticFile].  [readPublic p] is the content of the file at
    [join(PUBLIC_DIR, p)], or [None] when [fs.access] or [fs.readFile]
    rejects. *)
Definition serveStaticFile (readPublic : string -> option string) (path : string)
  : option (string * string) :=
  match readPublic path with
  | Some data => Some (data, contentTypeOf path)
  | None => None
  end.

(** ** The request handler, lines 134-208 *)

(** What [res.end] is given: a text, the bytes of a file, or the fixed
    client script of lines 144-176. *)
Inductive body : Type :=
| Text (s : string)
| File (data : string)
| WsClientScript.

(** A response: the status and [Content-Type] given to [res.writeHead]
    and the body given to [res.end]. *)
Record response : Type := mkResponse {
  statusCode : Z;
  contentType : option string;
  payload : body
}.

(** [s.slice(1)]. *)
Definition slice1 (s : string) : string :=
  match s with
  | EmptyString => EmptyString
  | String _ s' => s'
  end.

(** The routes of the handler of [http.createServer], lines 136-207:
    what it does once line 135 has parsed the request URL into its
    [pathname].  A [Throw] is the handler's promise rejecting with nothing
    written to the response. *)
Definition requestHandler (env : Env) (schemaPath : string)
    (readPublic : string -> option string) (pathname : string) : completion response :=
  if pathname =? "/schema" then
    mermaid <- generateMermaidFromSchema env schemaPath;;
    Normal (mkResponse 200 (Some "text/plain") (Text mermaid))
  else if pathname =? "/ws-client.js" then
    Normal (mkResponse 200 (Some "application/javascript") WsClientScript)
  else if pathname =? "/" then
    match readPublic "index.html" with
    | Some data => Normal (mkResponse 200 (Some "text/html") (File data))
    | None => Normal (mkResponse 404 None (Text "index.html not found"))
    end
  else
    let path := if startsWith pathname "/" then slice1 pathname else pathname in
    if path =? "" then Normal (mkResponse 404 None (Text "Not Found"))
    else match serveStaticFile readPublic path with
         | Some (data, type) => Normal (mkResponse 200 (Some type) (File data))
         | None => Normal (mkResponse 404 None (Text "Not Found"))
         end.

(** The whole callback of [http.createServer], lines 134-208, on the
    request target [req.url] and the [Host] header, either of which may be
    absent.  [URL_pathname input base] is the [pathname] of
    [new URL(input, base)], or the [TypeError] the constructor throws when
    it cannot parse them. *)
Definition handleRequest (URL_pathname : string -> string -> completion string)
    (env : Env) (schemaPath : string) (readPublic : string -> option string)
    (url host : option string) : completion response :=
  pathname <- URL_pathname
                (match url with Some u => u | None => "" end)
                ("http://" ++ match host with Some h => h | None => "undefined" end);;
  requestHandler env schemaPath readPublic pathname.

(** ** A new connection, lines 227-232 *)

(** The [connection] handler: compile, then send to the new socket if it
    is open when the text arrives. *)
Definition onConnection (env : Env) (path : string) (ws : WebSocket)
    (log : list (nat * string)) : completion (list (nat * string)) :=
  mermaid <- generateMermaidFromSchema env path;;
  Normal (if (readyState ws =? 1)%Z then send log ws mermaid else log).

(** ** Shapes of raw schema objects *)

(** The properties of a validator that [getFieldType] reads. *)
Definition labelProperties : list string :=
  ["kind"; "tableName"; "value"; "element"; "key"; "members"].

(** [v] is [undefined] or [null]. *)
Definition nullish (v : value) : bool :=
  match v with
  | VUndefined | VNull => true
  | _ => false
  end.

(** [tableDef.validator] is missing: absent or [null], or unreadable
    because the table definition itself is [undefined] or [null]. *)
Definition validatorMissing (tableDef : value) : Prop :=
  match getProp tableDef "validator" with
  | Normal v => nullish v = true
  | Throw _ => True
  end.

(** [tableDef.validator.fields] can be read and is falsy: the table has
    no field collection. *)
Definition fieldsAbsent (tableDef : value) : Prop :=
  match getProp tableDef "validator" with
  | Normal v =>
      match getProp v "fields" with
      | Normal fields => truthy fields = false
      | Throw _ => False
      end
  | Throw _ => False
  end.

(** No dot occurs in [s]. *)
Definition dotless (s : string) : bool :=
  negb (existsb (Ascii.eqb "."%char) (list_ascii_of_string s)).

(** [Array.isArray(v)]. *)
Definition isArray (v : value) : bool :=
  match v with
  | VArray _ => true
  | _ => false
  end.

(** [ws.readyState === 1]. *)
Definition isOpen (ws : WebSocket) : bool := (readyState ws =? 1)%Z.

(** ** What the compiler reads of a schema object *)

(** Two validators alike in all that lines 56-74 and 84-88 read: the same
    value, or two objects with the same [kind] and [tableName], alike in
    turn at [value], [element] and [key], and whose [members] are the
    same value or two arrays alike element by element.  Any other
    property may differ. *)
#[warnings="-register-all"]
Inductive sameValidator : value -> value -> Prop :=
| sameValidator_same (v : value) : sameValidator v v
| sameValidator_object (props props' : list (string * value)) :
    lookup "kind" props = lookup "kind" props' ->
    lookup "tableName" props = lookup "tableName" props' ->
    sameValidator (lookup "value" props) (lookup "value" props') ->
    sameValidator (lookup "element" props) (lookup "element" props') ->
    sameValidator (lookup "key" props) (lookup "key" props') ->
    (lookup "members" props = lookup "members" props'
     \/ exists ms ms',
          lookup "members" props = VArray ms
          /\ lookup "members" props' = VArray ms'
          /\ Forall2 sameValidator ms ms') ->
    sameValidator (VObject props) (VObject props').

(** The same value, or two objects whose property lists are related. *)
Definition sameObject (R : list (string * value) -> list (string * value) -> Prop)
    (v v' : value) : Prop :=
  v = v' \/ exists props props', v = VObject props /\ v' = VObject props' /\ R props props'.

(** Related at one property, whatever the others. *)
Definition atKey (key : string) (R : value -> value -> Prop)
    (props props' : list (string * value)) : Prop :=
  R (lookup key props) (lookup key props').

(** The same keys in the same order, with related values. *)
Definition entrywise (R : value -> value -> Prop)
    (props props' : list (string * value)) : Prop :=
  Forall2 (fun e e' => fst e = fst e' /\ R (snd e) (snd e')) props props'.

(** Table definitions alike in their [validator.fields], field by field. *)
Definition sameTable : value -> value -> Prop :=
  sameObject (atKey "validator"
    (sameObject (atKey "fields" (sameObject (entrywise sameValidator))))).

(** Schema objects alike in their [tables], table by table. *)
Definition sameSchema : value -> value -> Prop :=
  sameObject (atKey "tables" (sameObject (entrywise sameTable))).

(** Module namespace objects alike in their default export. *)
Definition sameModule : value -> value -> Prop :=
  sameObject (atKey "default" sameSchema).

(** Two settlements of [import(url)] alike for the compiler: two modules
    alike in their default export, or the same rejection. *)
Definition sameLoad (r r' : completion value) : Prop :=
  match r, r' with
  | Normal module, Normal module' => sameModule module module'
  | Throw e, Throw e' => e = e'
  | _, _ => False
  end.

(** A [TypeError] with a message, as the runtime throws them. *)
Definition isTypeError (e : error) : Prop :=
  exists msg, e = TypeError msg /\ msg <> "".

(** * Properties *)

(** ** Strings and decimal rendering *)

Section StringFacts.

Lemma append_assoc (a b c : string) : (a ++ b) ++ c = a ++ b ++ c.
Proof. induction a as [|x a IH]; simpl; [reflexivity | now rewrite IH]. Qed.

Lemma append_nil_r (a : string) : a ++ "" = a.
Proof. induction a as [|x a IH]; simpl; [reflexivity | now rewrite IH]. Qed.

Lemma append_inj_l (a b c : string) : a ++ b = a ++ c -> b = c.
Proof.
  induction a as [|x a IH]; simpl; intros H; [exact H|].
  injection H as H. now apply IH.
Qed.

Lemma flatten_app (l1 l2 : list string) :
  flatten (l1 ++ l2) = flatten l1 ++ flatten l2.
Proof.
  induction l1 as [|x l1 IH]; simpl; [reflexivity|].
  unfold flatten in *. simpl. now rewrite IH, append_assoc.
Qed.

Lemma occursIn_flatten (part : string) (l : list string) :
  In part l -> occursIn part (flatten l).
Proof.
  intros H. apply in_split in H as (l1 & l2 & ->).
  exists (flatten l1), (flatten l2). now rewrite flatten_app.
Qed.

Lemma occursIn_app_r (part a b : string) : occursIn part b -> occursIn part (a ++ b).
Proof.
  intros (x & y & ->). exists (a ++ x), y. now rewrite append_assoc.
Qed.

End StringFacts.

Lemma to_int_proper (n : Z) : Z.to_int n <> Decimal.Pos Decimal.Nil /\ Z.to_int n <> Decimal.Neg Decimal.Nil.
Proof.
  destruct n as [|p|p]; simpl; split; try discriminate;
    intros H; injection H as H; now apply (DecimalPos.Unsigned.to_uint_nonnil p).
Qed.

Lemma decimal_inj (n m : Z) : decimal n = decimal m -> n = m.
Proof.
  unfold decimal. intros H.
  apply DecimalZ.to_int_inj.
  destruct (to_int_proper n) as [Hn1 Hn2], (to_int_proper m) as [Hm1 Hm2].
  pose proof (NilZero.isi _ Hn1 Hn2) as En.
  pose proof (NilZero.isi _ Hm1 Hm2) as Em.
  rewrite H in En. rewrite En in Em. now injection Em.
Qed.

Lemma decimal_nonempty (n : Z) : decimal n <> "".
Proof.
  unfold decimal.
  destruct (Z.to_int n) as [d|d]; simpl; [|discriminate].
  destruct d; simpl; discriminate.
Qed.

(** ** The recursion budget of [getFieldType] is always enough *)

Lemma lookup_height (key : string) (props : list (string * value)) :
  (height (lookup key props) < height (VObject props))%nat.
Proof.
  induction props as [|[k x] props IH]; simpl in *; [lia|].
  destruct (k =? key); lia.
Qed.

Lemma element_height (x : value) (elems : list value) :
  In x elems -> (height x < height (VArray elems))%nat.
Proof.
  induction elems as [|y elems IH]; simpl; [contradiction|].
  intros [->|H]; [lia|]. specialize (IH H). simpl in IH. unfold maxHeight in *. lia.
Qed.

Lemma mapF_ext {A B} (f g : A -> fuelled B) (l : list A) :
  (forall x, In x l -> f x = g x) -> mapF f l = mapF g l.
Proof.
  induction l as [|a l IH]; simpl; intros H; [reflexivity|].
  rewrite (H a) by now left. rewrite IH by (intros; apply H; now right).
  reflexivity.
Qed.

Lemma mapF_some {A B} (f : A -> fuelled B) (l : list A) :
  (forall x, In x l -> f x <> None) -> mapF f l <> None.
Proof.
  induction l as [|a l IH]; simpl; intros H; [discriminate|].
  pose proof (H a (or_introl eq_refl)) as Ha.
  destruct (f a) as [[b|e]|]; simpl; [|discriminate|congruence].
  assert (Hl : mapF f l <> None) by (apply IH; intros; apply H; now right).
  destruct (mapF f l) as [[bs|e]|]; simpl; [discriminate|discriminate|congruence].
Qed.

Lemma getFieldType_rec_unfold (fuel : nat) (props : list (string * value)) :
  getFieldType_rec (S fuel) (VObject props) =
  match lookup "kind" props with
  | VString kind =>
      if kind =? "string" then run (Normal (VString "string"))
      else if kind =? "id" then
        run (Normal (VString ("id(" ++ toStr (lookup "tableName" props) ++ ")")))
      else if kind =? "float64" then run (Normal (VString "number"))
      else if kind =? "int64" then run (Normal (VString "int"))
      else if kind =? "boolean" then run (Normal (VString "boolean"))
      else if kind =? "bytes" then run (Normal (VString "bytes"))
      else if kind =? "null" then run (Normal (VString "null"))
      else if kind =? "any" then run (Normal (VString "any"))
      else if kind =? "object" then run (Normal (VString "object"))
      else if kind =? "literal" then
        run (Normal (VString (toStr (lookup "value" props))))
      else if kind =? "array" then
        t <~ getFieldType_rec fuel (lookup "element" props);;
        run (Normal (VString (toStr t ++ "[]")))
      else if kind =? "record" then
        k <~ getFieldType_rec fuel (lookup "key" props);;
        v <~ getFieldType_rec fuel (lookup "value" props);;
        run (Normal (VString ("record(" ++ toStr k ++ "_" ++ toStr v ++ ")")))
      else if kind =? "union" then
        ts <~ Array_map "validator.members" (getFieldType_rec fuel)
                (lookup "members" props);;
        run (Normal (VString ("union(" ++ Array_join "_or_" ts ++ ")")))
      else run (Normal (default_label (VString kind)))
  | kind => run (Normal (default_label kind))
  end.
Proof. simpl. destruct (lookup "kind" props); reflexivity. Qed.

Lemma getFieldType_rec_primitive (fuel : nat) (v : value) :
  (forall props, v <> VObject props) ->
  getFieldType_rec (S fuel) v = run (Normal (VString "unknown")).
Proof.
  intros H. destruct v; simpl; try reflexivity.
  - now destruct b.
  - now destruct (n =? 0)%Z.
  - now destruct (n =? 0)%Z.
  - now destruct (s =? "").
  - now elim (H props).
Qed.

(** One step of the case analysis on the kind tests of the unfolded
    classifier. *)
Ltac kind_cases :=
  repeat match goal with
         | |- context [if ?k =? ?c then _ else _] => destruct (k =? c)
         end.

Lemma getFieldType_rec_stable (n m : nat) (v : value) :
  (height v < n)%nat -> (height v < m)%nat ->
  getFieldType_rec n v = getFieldType_rec m v.
Proof.
  revert m v. induction n as [|n IH]; intros m v Hn Hm; [lia|].
  destruct m as [|m]; [lia|].
  destruct v as [ | | b | z | | z | s | elems | props];
    try (rewrite !getFieldType_rec_primitive by discriminate; reflexivity).
  rewrite !getFieldType_rec_unfold.
  pose proof (lookup_height "element" props) as He.
  pose proof (lookup_height "key" props) as Hk.
  pose proof (lookup_height "value" props) as Hv.
  pose proof (lookup_height "members" props) as Hm'.
  destruct (lookup "kind" props); try reflexivity.
  kind_cases; try reflexivity.
  - rewrite (IH m) by lia. reflexivity.
  - rewrite (IH m (lookup "key" props)), (IH m (lookup "value" props)) by lia.
    reflexivity.
  - destruct (lookup "members" props) as [ | | | | | | | elems | ]; try reflexivity.
    simpl Array_map. rewrite (mapF_ext _ (getFieldType_rec m)); [reflexivity|].
    intros x Hx. apply element_height in Hx. apply IH; lia.
Qed.

Lemma getFieldType_rec_total (n : nat) (v : value) :
  (height v < n)%nat -> getFieldType_rec n v <> None.
Proof.
  revert v. induction n as [|n IH]; intros v Hn; [lia|].
  destruct v as [ | | b | z | | z | s | elems | props];
    try (rewrite getFieldType_rec_primitive by discriminate; discriminate).
  rewrite getFieldType_rec_unfold.
  pose proof (lookup_height "element" props) as He.
  pose proof (lookup_height "key" props) as Hk.
  pose proof (lookup_height "value" props) as Hv.
  pose proof (lookup_height "members" props) as Hm'.
  destruct (lookup "kind" props); try discriminate.
  kind_cases; try discriminate.
  - specialize (IH (lookup "element" props) ltac:(lia)).
    destruct (getFieldType_rec n (lookup "element" props)) as [[t|e]|];
      simpl; unfold run; congruence.
  - pose proof (IH (lookup "key" props) ltac:(lia)) as H1.
    pose proof (IH (lookup "value" props) ltac:(lia)) as H2.
    destruct (getFieldType_rec n (lookup "key" props)) as [[t|e]|];
      simpl; unfold run; try congruence.
    destruct (getFieldType_rec n (lookup "value" props)) as [[t'|e]|];
      simpl; unfold run; congruence.
  - destruct (lookup "members" props) as [ | | | | | | | elems | ]; try discriminate.
    simpl Array_map.
    assert (H : mapF (getFieldType_rec n) elems <> None).
    { apply mapF_some. intros x Hx. apply element_height in Hx. apply IH. lia. }
    destruct (mapF (getFieldType_rec n) elems) as [[ts|e]|]; simpl; unfold run; congruence.
Qed.

(** The budget never runs out: the [RangeError] branch of [getFieldType]
    is dead, and any larger budget gives the same result. *)
Lemma getFieldType_rec_enough (fuel : nat) (v : value) :
  (height v < fuel)%nat -> getFieldType_rec fuel v = Some (getFieldType v).
Proof.
  intros H. unfold getFieldType.
  rewrite (getFieldType_rec_stable fuel (S (height v))) by lia.
  pose proof (getFieldType_rec_total (S (height v)) v ltac:(lia)) as Ht.
  destruct (getFieldType_rec (S (height v)) v); congruence.
Qed.

(** ** Equations of [getFieldType], case by case *)

Lemma getFieldType_falsy (v : value) :
  truthy v = false -> getFieldType v = Normal (VString "unknown").
Proof.
  intros H. unfold getFieldType. simpl. now rewrite H.
Qed.

Lemma getFieldType_object (props : list (string * value)) :
  getFieldType (VObject props) =
  match getFieldType_rec (S (height (VObject props))) (VObject props) with
  | Some c => c
  | None => Throw (mkError "RangeError" "Maximum call stack size exceeded")
  end.
Proof. reflexivity. Qed.

Lemma getFieldType_id (props : list (string * value)) :
  lookup "kind" props = VString "id" ->
  getFieldType (VObject props)
  = Normal (VString ("id(" ++ toStr (lookup "tableName" props) ++ ")")).
Proof.
  intros Hk. rewrite getFieldType_object, getFieldType_rec_unfold, Hk. reflexivity.
Qed.

Lemma getFieldType_array (props : list (string * value)) :
  lookup "kind" props = VString "array" ->
  getFieldType (VObject props)
  = (t <- getFieldType (lookup "element" props);;
     Normal (VString (toStr t ++ "[]"))).
Proof.
  intros Hk. rewrite getFieldType_object, getFieldType_rec_unfold, Hk.
  cbn [String.eqb Ascii.eqb Bool.eqb].
  rewrite getFieldType_rec_enough by apply lookup_height.
  now destruct (getFieldType (lookup "element" props)).
Qed.

Lemma getFieldType_record (props : list (string * value)) :
  lookup "kind" props = VString "record" ->
  getFieldType (VObject props)
  = (k <- getFieldType (lookup "key" props);;
     v <- getFieldType (lookup "value" props);;
     Normal (VString ("record(" ++ toStr k ++ "_" ++ toStr v ++ ")"))).
Proof.
  intros Hk. rewrite getFieldType_object, getFieldType_rec_unfold, Hk.
  cbn [String.eqb Ascii.eqb Bool.eqb].
  rewrite !getFieldType_rec_enough by apply lookup_height.
  destruct (getFieldType (lookup "key" props)); [|reflexivity].
  now destruct (getFieldType (lookup "value" props)).
Qed.

Lemma getFieldType_union (props : list (string * value)) (elems ts : list value) :
  lookup "kind" props = VString "union" ->
  lookup "members" props = VArray elems ->
  Forall2 (fun m t => getFieldType m = Normal t) elems ts ->
  getFieldType (VObject props)
  = Normal (VString ("union(" ++ Array_join "_or_" ts ++ ")")).
Proof.
  intros Hk Hm Hts. rewrite getFieldType_object, getFieldType_rec_unfold, Hk.
  cbn [String.eqb Ascii.eqb Bool.eqb].
  pose proof (lookup_height "members" props) as Hh. rewrite Hm in *.
  remember (height (VObject props)) as h eqn:Eh. clear Eh.
  assert (Hlt : forall m, In m elems -> (height m < h)%nat).
  { intros m Hin. apply element_height in Hin. lia. }
  clear Hh Hm.
  assert (E : mapF (getFieldType_rec h) elems = Some (Normal ts)).
  { induction Hts as [|m t elems ts Hmt Hts IH]; [reflexivity|].
    simpl mapF.
    rewrite getFieldType_rec_enough, Hmt by (apply Hlt; now left).
    simpl bindF. rewrite IH by (intros; apply Hlt; now right). reflexivity. }
  simpl Array_map. rewrite E. reflexivity.
Qed.

(** ** The classifier on typed validators *)

Section FieldValidatorInduction.

Variable P : FieldValidator -> Prop.
Hypothesis Hatomic : forall fv, atomic fv = true -> P fv.
Hypothesis Harray : forall e, P e -> P (v_array e).
Hypothesis Hrecord : forall k v, P k -> P v -> P (v_record k v).
Hypothesis Hunion : forall ms, Forall P ms -> P (v_union ms).

Lemma FieldValidator_nested_ind : forall fv, P fv.
Proof.
  exact (fix ind (fv : FieldValidator) : P fv :=
           match fv with
           | v_array e => Harray e (ind e)
           | v_record k v => Hrecord k v (ind k) (ind v)
           | v_union ms =>
               Hunion ms
                 ((fix all (l : list FieldValidator) : Forall P l :=
                     match l with
                     | [] => Forall_nil P
                     | m :: l' => Forall_cons m (ind m) (all l')
                     end) ms)
           | fv' => Hatomic fv' eq_refl
           end).
Qed.

End FieldValidatorInduction.

Lemma isKnownKind_false (k : string) :
  isKnownKind k = false ->
  Forall (fun c => (k =? c) = false) knownKinds.
Proof.
  unfold isKnownKind. induction knownKinds as [|c l IH]; simpl; intros H.
  - constructor.
  - apply orb_false_iff in H as [H1 H2]. constructor; auto.
Qed.

(** Rewrites every test of an unrecognized kind against a known one. *)
Ltac unknown_kind Hfresh :=
  let H := fresh "H" in
  pose proof (isKnownKind_false _ Hfresh) as H;
  unfold knownKinds in H;
  repeat match type of H with
         | Forall _ (_ :: _) =>
             let E := fresh "E" in
             let H' := fresh "H" in
             inversion H as [|? ? E H']; subst; clear H; rename H' into H
         end;
  repeat match goal with
         | E : (_ =? _) = false |- _ => try rewrite E; clear E
         end.

Lemma Array_join_labels (sep : string) (ms : list FieldValidator) :
  Array_join sep (map (fun m => VString (label m)) ms) = String.concat sep (map label ms).
Proof. unfold Array_join. now rewrite map_map. Qed.

(** The code computes the closed-form label on every typed validator:
    it returns a string and does not throw. *)
Lemma getFieldType_encode (fv : FieldValidator) :
  getFieldType (encode fv) = Normal (VString (label fv)).
Proof.
  induction fv as [fv Ha | e IH | k v IHk IHv | ms IH] using FieldValidator_nested_ind.
  - destruct fv; try discriminate Ha; try reflexivity.
    simpl encode. rewrite getFieldType_object, getFieldType_rec_unfold. simpl lookup.
    unknown_kind Hkind.
    unfold default_label. simpl. now destruct (kind =? "").
  - simpl encode. rewrite getFieldType_array by reflexivity.
    simpl lookup. rewrite IH. reflexivity.
  - simpl encode. rewrite getFieldType_record by reflexivity.
    simpl lookup. rewrite IHk, IHv. reflexivity.
  - simpl encode.
    rewrite (getFieldType_union _ (map encode ms) (map (fun m => VString (label m)) ms));
      try reflexivity.
    + now rewrite Array_join_labels.
    + induction IH as [|m ms Hm _ IH']; simpl; constructor; auto.
Qed.

(** ** The compiler on typed schemas *)

Lemma fieldStep_encode (t m : string) (rels : list relationship)
    (f : string) (fv : FieldValidator) :
  fieldStep t (m, rels) (f, encode fv)
  = Normal (m ++ fieldLine (f, fv), (rels ++ fieldRelationships t (f, fv))%list).
Proof.
  unfold fieldStep. rewrite getFieldType_encode. simpl bind.
  unfold fieldLine, fieldRelationships. simpl fst. simpl snd. simpl toStr.
  destruct fv; simpl; rewrite ?app_nil_r; try reflexivity.
  - unfold truthy. destruct (tableName =? ""); simpl; now rewrite ?app_nil_r.
  - unknown_kind Hkind. reflexivity.
Qed.

Lemma fields_encode (t : string) (fs : TableDefinition) :
  forall (m : string) (rels : list relationship),
    foldM (fieldStep t) (m, rels) (encodeFields fs)
    = Normal (m ++ flatten (map fieldLine fs),
              (rels ++ flat_map (fieldRelationships t) fs)%list).
Proof.
  induction fs as [|[f fv] fs IH]; intros m rels;
    unfold encodeFields; cbn [map foldM fst snd flat_map flatten fold_right].
  - now rewrite append_nil_r, app_nil_r.
  - rewrite fieldStep_encode. cbn [bind]. fold (encodeFields fs). rewrite IH.
    unfold flatten. now rewrite append_assoc, <- app_assoc.
Qed.

Lemma tableStep_encode (m : string) (rels : list relationship)
    (t : string) (fs : TableDefinition) :
  tableStep (m, rels) (t, encodeTable fs)
  = Normal (m ++ entityBlock (t, fs), (rels ++ tableRelationships (t, fs))%list).
Proof.
  unfold tableStep, encodeTable. simpl getProp. simpl bind.
  rewrite fields_encode. simpl bind. unfold entityBlock, tableRelationships.
  simpl fst. simpl snd. now rewrite !append_assoc.
Qed.

Lemma tables_encode (S : Schema) :
  forall (m : string) (rels : list relationship),
    foldM tableStep (m, rels) (encodeTables S)
    = Normal (m ++ entityBlocks S, (rels ++ schemaRelationships S)%list).
Proof.
  induction S as [|[t fs] S IH]; intros m rels;
    unfold encodeTables, entityBlocks, schemaRelationships;
    cbn [map foldM fst snd flat_map flatten fold_right].
  - now rewrite append_nil_r, app_nil_r.
  - rewrite tableStep_encode. cbn [bind]. fold (encodeTables S). rewrite IH.
    unfold entityBlocks, schemaRelationships, flatten.
    now rewrite append_assoc, <- app_assoc.
Qed.

Lemma relSteps_strings (rels : list relationship) :
  Forall (fun r => exists s, to r = VString s) rels ->
  forall m, foldM relStep m rels = Normal (m ++ relationshipLines rels).
Proof.
  induction 1 as [|r rels [s Hs] _ IH]; intros m; simpl.
  - now rewrite append_nil_r.
  - unfold relStep at 1. rewrite Hs. simpl bind. rewrite IH.
    unfold relationshipLines, relationshipLine. simpl. rewrite Hs. simpl toStr.
    now rewrite !append_assoc.
Qed.

Lemma schemaRelationships_strings (S : Schema) :
  Forall (fun r => exists s, to r = VString s) (schemaRelationships S).
Proof.
  unfold schemaRelationships, tableRelationships.
  apply Forall_flat_map, Forall_forall. intros [t fs] _.
  apply Forall_flat_map, Forall_forall. intros [f fv] _.
  unfold fieldRelationships. simpl.
  destruct fv; try constructor.
  destruct (tableName =? ""); constructor; simpl; eauto.
Qed.

(** On a typed schema the compiler returns the header, the entity blocks
    and one line per relationship, in that order. *)
Lemma compileSchema_encode (S : Schema) :
  compileSchema (encodeSchema S)
  = Normal ("erDiagram" ++ nl ++ entityBlocks S
            ++ relationshipLines (schemaRelationships S),
            schemaRelationships S).
Proof.
  unfold compileSchema, encodeSchema. simpl getProp. simpl bind.
  rewrite tables_encode. simpl bind. simpl fst. simpl snd.
  rewrite relSteps_strings by apply schemaRelationships_strings.
  cbn [bind]. now rewrite <- !append_assoc.
Qed.

Lemma schemaRelationships_idReferences (S : Schema) :
  schemaRelationships S
  = flat_map
      (fun ref =>
         let '(t, f, r) := ref in
         if r =? "" then [] else [mkRel t (VString r) f])
      (idReferences S).
Proof.
  unfold schemaRelationships, idReferences, tableRelationships.
  induction S as [|[t fs] S IH]; [reflexivity|].
  cbn [flat_map fst snd]. rewrite flat_map_app, <- IH. f_equal.
  induction fs as [|[f fv] fs IHfs]; [reflexivity|].
  cbn [flat_map fst snd]. rewrite flat_map_app, <- IHfs. f_equal.
  unfold fieldRelationships. cbn [fst snd].
  destruct fv; try reflexivity.
  cbn [flat_map]. now rewrite app_nil_r.
Qed.

(** ** Relationship extraction *)

(** C1. For every schema in which the field [user] of table [messages],
    an identifier reference to [users], is the only identifier-reference
    field, compiling produces exactly the relationship
    {from: messages, to: users, field: user}, and the diagram text is the
    header, the entity blocks and then exactly the one line
    [USERS ||--o{ MESSAGES : user]. *)
Theorem C1_relationship_extraction (S : Schema) :
  idReferences S = [("messages", "user", "users")] ->
  compileSchema (encodeSchema S)
  = Normal ("erDiagram" ++ nl ++ entityBlocks S
            ++ "USERS ||--o{ MESSAGES : user" ++ nl,
            [mkRel "messages" (VString "users") "user"]).
Proof.
  intros H. rewrite compileSchema_encode, schemaRelationships_idReferences, H.
  reflexivity.
Qed.

(** The schema of [test-schema.ts] compiles to the expected diagram. *)
Lemma C1_relationship_extraction_witness :
  compileSchema (encodeSchema testSchema)
  = Normal ("erDiagram" ++ nl
            ++ "MESSAGES {" ++ nl
            ++ "    string body" ++ nl
            ++ "    id(users) user" ++ nl
            ++ "    number createdAt" ++ nl
            ++ "}" ++ nl
            ++ "USERS {" ++ nl
            ++ "    string name" ++ nl
            ++ "    string tokenIdentifier" ++ nl
            ++ "}" ++ nl
            ++ "USERS ||--o{ MESSAGES : user" ++ nl,
            [mkRel "messages" (VString "users") "user"]).
Proof.
  exact (C1_relationship_extraction testSchema eq_refl).
Defined.

(** ** Label totality *)

Lemma append_eq_nil (a b : string) : a ++ b = "" -> a = "" /\ b = "".
Proof. destruct a; simpl; [auto | discriminate]. Qed.

Lemma label_empty (fv : FieldValidator) :
  label fv = "" <-> fv = v_literal (LString "").
Proof.
  split; [|intros ->; reflexivity].
  destruct fv as [ | | | | | | | | t | l | e | k v | ms | kind Hk | ];
    simpl; try discriminate.
  - destruct l as [s|n|n|b]; simpl; intros H.
    + now subst.
    + now apply decimal_nonempty in H.
    + now apply decimal_nonempty in H.
    + destruct b; discriminate.
  - intros H. apply append_eq_nil in H as [_ H]. discriminate.
  - destruct (kind =? "") eqn:E; [discriminate|].
    apply String.eqb_neq in E. contradiction.
Qed.

(** C3, as the code has it. On every variant of a field validator the
    classifier returns a string and does not throw; the string is empty
    for the literal validator of the empty string and for no other
    variant. *)
Theorem C3_label_total (fv : FieldValidator) :
  exists s, getFieldType (encode fv) = Normal (VString s)
            /\ (s = "" <-> fv = v_literal (LString "")).
Proof.
  exists (label fv). split; [apply getFieldType_encode | apply label_empty].
Qed.

(** C3 fails as stated: the literal validator of the empty string has no
    non-empty label. *)
Lemma C3_empty_literal_label :
  ~ (exists s, getFieldType (encode (v_literal (LString ""))) = Normal (VString s)
               /\ s <> "").
Proof.
  intros (s & H & Hs). rewrite getFieldType_encode in H.
  injection H as <-. now apply Hs.
Qed.

(** ** Array and union composition *)

(** C4. An array of a union of (string, integer) is labelled
    [union(string_or_int)[]]; the label of an array is the label of its
    element followed by [[]]; the label of a union is [union(] followed by
    the labels of its members, in declared order, joined by [_or_], and
    [)]. *)
Theorem C4_array_union_composition :
  getFieldType (encode (v_array (v_union [v_string; v_int64])))
  = Normal (VString "union(string_or_int)[]")
  /\ (forall e, exists l,
        getFieldType (encode e) = Normal (VString l)
        /\ getFieldType (encode (v_array e)) = Normal (VString (l ++ "[]")))
  /\ (forall ms, exists ls,
        Forall2 (fun m l => getFieldType (encode m) = Normal (VString l)) ms ls
        /\ getFieldType (encode (v_union ms))
           = Normal (VString ("union(" ++ String.concat "_or_" ls ++ ")"))).
Proof.
  split; [reflexivity|]. split.
  - intros e. exists (label e). split; [apply getFieldType_encode|].
    simpl encode. rewrite getFieldType_array by reflexivity.
    cbn [lookup String.eqb Ascii.eqb Bool.eqb]. now rewrite getFieldType_encode.
  - intros ms. exists (map label ms). split.
    + induction ms as [|m ms IH]; simpl; constructor; auto using getFieldType_encode.
    + apply (getFieldType_encode (v_union ms)).
Qed.

(** ** Malformed schema *)

(** C5, as the code has it. When the loaded schema object has no table
    collection at all ([schema.tables] is absent or [null], or the module
    has no schema), [generateMermaidFromSchema] rejects with an [Error]
    whose message starts with [Failed to load or parse schema: ]; it
    settles with no diagram text. *)
Theorem C5_malformed_schema (env : Env) (path : string) (schemaModule schema : value) :
  import env (schemaUrl env path) = Normal schemaModule ->
  getProp schemaModule "default" = Normal schema ->
  tablesMissing schema ->
  (exists reason,
      generateMermaidFromSchema env path
      = Throw (mkError "Error" ("Failed to load or parse schema: " ++ reason)))
  /\ forall text, generateMermaidFromSchema env path <> Normal text.
Proof.
  intros Himport Hdefault Hmissing.
  assert (H : exists msg, compileSchema schema = Throw (TypeError msg)).
  { unfold tablesMissing in Hmissing. unfold compileSchema.
    destruct schema; simpl in *; try contradiction; eauto.
    destruct (lookup "tables" props); try contradiction; simpl; eauto. }
  destruct H as [msg He].
  unfold generateMermaidFromSchema.
  rewrite Himport. cbn [bind]. rewrite Hdefault. cbn [bind]. rewrite He.
  cbn [bind tryCatch wrapError readMessage TypeError].
  destruct (truthy (VString msg)); cbn [bind]; split; eauto; discriminate.
Qed.

Lemma C5_malformed_schema_witness :
  let env := mkEnv (append "file://") 1718000000000
                   (fun _ => Normal (VObject [("default", VObject [])])) in
  (exists reason,
      generateMermaidFromSchema env "convex/schema.ts"
      = Throw (mkError "Error" ("Failed to load or parse schema: " ++ reason)))
  /\ forall text, generateMermaidFromSchema env "convex/schema.ts" <> Normal text.
Proof.
  intros env.
  apply (C5_malformed_schema env "convex/schema.ts"
           (VObject [("default", VObject [])]) (VObject []));
    [reflexivity | reflexivity | exact I].
Defined.

(** C5 fails as stated: a schema object whose [tables] is present but is
    no collection (here the number 5) does not fail; [Object.entries]
    yields no entry and the bare header is returned. *)
Lemma C5_tables_not_a_collection :
  let env := mkEnv (append "file://") 1718000000000
               (fun _ => Normal (VObject [("default", VObject [("tables", VNumber 5)])])) in
  generateMermaidFromSchema env "convex/schema.ts" = Normal ("erDiagram" ++ nl)
  /\ ~ (exists e, generateMermaidFromSchema env "convex/schema.ts" = Throw e).
Proof.
  intros env. split; [reflexivity|]. intros [e H]. discriminate H.
Qed.

(** ** The loader's cache-busting query *)

(** C6, as the code has it. The loader appends [?update=] and the
    millisecond clock reading to the module URL, so two loader calls on a
    path use different URLs exactly when their clock readings differ. *)
Theorem C6_url_varies_with_clock (env1 env2 : Env) (path : string) :
  pathToFileURL_href env1 path = pathToFileURL_href env2 path ->
  (schemaUrl env1 path = schemaUrl env2 path <-> Date_now env1 = Date_now env2).
Proof.
  intros Hhref. unfold schemaUrl. rewrite Hhref. cbn [toStr]. split.
  - intros H. apply append_inj_l in H.
    apply (append_inj_l "?update=") in H. now apply decimal_inj.
  - now intros ->.
Qed.

Lemma C6_url_varies_with_clock_witness :
  let loader := fun _ : string => Normal (VObject [("default", encodeSchema testSchema)]) in
  let first := mkEnv (append "file://") 1718000000000 loader in
  let second := mkEnv (append "file://") 1718000000001 loader in
  schemaUrl first "convex/schema.ts" = schemaUrl second "convex/schema.ts"
  <-> Date_now first = Date_now second.
Proof.
  intros loader first second.
  apply (C6_url_varies_with_clock first second "convex/schema.ts").
  reflexivity.
Defined.

(** C6 fails as stated: two loader calls that read the same millisecond
    from the clock use the same module URL. *)
Lemma C6_same_millisecond_same_url :
  let loader := fun _ : string => Normal (VObject [("default", encodeSchema testSchema)]) in
  let first := mkEnv (append "file://") 1718000000000 loader in
  let second := mkEnv (append "file://") 1718000000000 loader in
  ~ (schemaUrl first "convex/schema.ts" <> schemaUrl second "convex/schema.ts").
Proof.
  intros loader first second H. now apply H.
Qed.

(** ** Dangling references *)

Lemma relationshipLines_In (r : relationship) (rels : list relationship) :
  In r rels ->
  occursIn (relationshipLine (toStr (to r)) (from r) (field r)) (relationshipLines rels).
Proof.
  intros H. unfold relationshipLines. apply occursIn_flatten.
  now apply (in_map (fun r => relationshipLine (toStr (to r)) (from r) (field r))).
Qed.

Lemma schemaRelationships_In (S : Schema) (t : string) (fs : TableDefinition)
    (f r : string) :
  In (t, fs) S -> In (f, v_id r) fs -> r <> "" ->
  In (mkRel t (VString r) f) (schemaRelationships S).
Proof.
  intros Ht Hf Hr. unfold schemaRelationships.
  apply in_flat_map. exists (t, fs). split; [assumption|].
  unfold tableRelationships. apply in_flat_map. exists (f, v_id r).
  split; [assumption|]. unfold fieldRelationships. cbn [fst snd].
  apply String.eqb_neq in Hr. rewrite Hr. now left.
Qed.

(** C7, as the code has it. For every schema with a field that is an
    identifier reference to a non-empty table name that is not a table of
    the schema, compiling succeeds, records the relationship and emits its
    line. *)
Theorem C7_dangling_reference (S : Schema) (t : string) (fs : TableDefinition)
    (f r : string) :
  In (t, fs) S -> In (f, v_id r) fs ->
  ~ In r (map fst S) ->
  r <> "" ->
  exists text rels,
    compileSchema (encodeSchema S) = Normal (text, rels)
    /\ In (mkRel t (VString r) f) rels
    /\ occursIn (relationshipLine r t f) text.
Proof.
  intros Ht Hf _ Hr. rewrite compileSchema_encode.
  eexists. eexists. split; [reflexivity|].
  pose proof (schemaRelationships_In S t fs f r Ht Hf Hr) as Hin.
  split; [assumption|].
  apply (occursIn_app_r _ ("erDiagram" ++ nl)).
  apply occursIn_app_r.
  exact (relationshipLines_In _ _ Hin).
Qed.

Lemma C7_dangling_reference_witness :
  exists text rels,
    compileSchema (encodeSchema [("messages", [("user", v_id "users")])])
    = Normal (text, rels)
    /\ In (mkRel "messages" (VString "users") "user") rels
    /\ occursIn (relationshipLine "users" "messages" "user") text.
Proof.
  apply (C7_dangling_reference [("messages", [("user", v_id "users")])]
           "messages" [("user", v_id "users")] "user" "users").
  - simpl. now left.
  - simpl. now left.
  - simpl. intros [H|[]]. discriminate H.
  - discriminate.
Defined.

(** C7 fails as stated: an identifier reference whose table name is the
    empty string names no table of the schema, and the compiler emits no
    relationship line for it. *)
Lemma C7_empty_reference_no_line :
  In ("f", v_id "") [("f", v_id "")]
  /\ ~ In "" (map fst [("t", [("f", v_id "")])])
  /\ compileSchema (encodeSchema [("t", [("f", v_id "")])])
     = Normal ("erDiagram" ++ nl ++ "T {" ++ nl ++ "    id() f" ++ nl ++ "}" ++ nl, []).
Proof.
  split; [now left|]. split; [|reflexivity].
  simpl. intros [H|[]]. discriminate H.
Qed.

(** ** Broadcast *)

(** What the loop of [broadcastMermaid] adds to the log. *)
Lemma broadcast_loop (mermaid : string) (clients : list WebSocket) :
  forall log,
    fold_left
      (fun log client =>
         if (readyState client =? 1)%Z then send log client mermaid else log)
      clients log
    = (log ++ flat_map
                (fun c => if (readyState c =? 1)%Z then [(socket c, mermaid)] else [])
                clients)%list.
Proof.
  induction clients as [|c clients IH]; intros log; simpl.
  - now rewrite app_nil_r.
  - rewrite IH. unfold send.
    destruct (readyState c =? 1)%Z; simpl; [now rewrite <- app_assoc | reflexivity].
Qed.

Lemma sentTo_app (s : nat) (l1 l2 : list (nat * string)) :
  sentTo s (l1 ++ l2) = (sentTo s l1 ++ sentTo s l2)%list.
Proof. unfold sentTo. now rewrite filter_app, map_app. Qed.

Lemma sentTo_others (mermaid : string) (s : nat) (clients : list WebSocket) :
  ~ In s (map socket clients) ->
  sentTo s (flat_map
              (fun c => if (readyState c =? 1)%Z then [(socket c, mermaid)] else [])
              clients) = [].
Proof.
  induction clients as [|c clients IH]; simpl; intros H; [reflexivity|].
  rewrite sentTo_app, IH by tauto. rewrite app_nil_r.
  destruct (readyState c =? 1)%Z; [|reflexivity].
  unfold sentTo. simpl. destruct (Nat.eqb_spec (socket c) s); [|reflexivity].
  exfalso. apply H. now left.
Qed.

Lemma sentTo_member (mermaid : string) (c : WebSocket) (clients : list WebSocket) :
  NoDup (map socket clients) -> In c clients ->
  sentTo (socket c)
         (flat_map
            (fun c => if (readyState c =? 1)%Z then [(socket c, mermaid)] else [])
            clients)
  = if (readyState c =? 1)%Z then [mermaid] else [].
Proof.
  induction clients as [|d clients IH]; simpl; intros Hnd Hin; [contradiction|].
  inversion Hnd as [|? ? Hd Hnd']; subst. rewrite sentTo_app.
  destruct Hin as [->|Hin].
  - rewrite sentTo_others by assumption. rewrite app_nil_r.
    destruct (readyState c =? 1)%Z; [|reflexivity].
    unfold sentTo. simpl. now rewrite Nat.eqb_refl.
  - rewrite IH by assumption.
    assert (Hne : socket d <> socket c).
    { intros E. apply Hd. rewrite E. now apply in_map. }
    destruct (readyState d =? 1)%Z; [|reflexivity].
    unfold sentTo at 1. simpl.
    destruct (Nat.eqb_spec (socket d) (socket c)); [contradiction | reflexivity].
Qed.

(** C8. When the recompilation after a change yields a diagram text, the
    broadcast hands that text exactly once to every connected client whose
    transport is open and nothing to any other socket; the clients that
    are not open are passed over and the broadcast completes normally. *)
Theorem C8_post_change_broadcast (env : Env) (path : string)
    (clients : list WebSocket) (log : list (nat * string)) (mermaid : string) :
  NoDup (map socket clients) ->
  generateMermaidFromSchema env path = Normal mermaid ->
  exists sent,
    broadcastMermaid env path clients log = Normal (log ++ sent)%list
    /\ (forall c, In c clients ->
          sentTo (socket c) sent = if (readyState c =? 1)%Z then [mermaid] else [])
    /\ (forall s, ~ In s (map socket clients) -> sentTo s sent = []).
Proof.
  intros Hnd Hgen. unfold broadcastMermaid. rewrite Hgen. cbn [bind].
  rewrite broadcast_loop. eexists. split; [reflexivity|]. split.
  - intros c Hc. now apply sentTo_member.
  - intros s Hs. now apply sentTo_others.
Qed.

Lemma C8_post_change_broadcast_witness :
  let env := mkEnv (append "file://") 1718000000000
                   (fun _ => Normal (VObject [("default", encodeSchema [("users", [])])])) in
  let clients := [mkWebSocket 1 1; mkWebSocket 2 3; mkWebSocket 3 1] in
  let mermaid := "erDiagram" ++ nl ++ "USERS {" ++ nl ++ "}" ++ nl in
  exists sent,
    broadcastMermaid env "convex/schema.ts" clients [] = Normal ([] ++ sent)%list
    /\ (forall c, In c clients ->
          sentTo (socket c) sent = if (readyState c =? 1)%Z then [mermaid] else [])
    /\ (forall s, ~ In s (map socket clients) -> sentTo s sent = []).
Proof.
  intros env clients mermaid.
  apply (C8_post_change_broadcast env "convex/schema.ts" clients [] mermaid).
  - repeat constructor; simpl; intuition discriminate.
  - reflexivity.
Defined.

(** ** Absent validators *)

(** C9 on the code. The classifier labels an absent validator [unknown],
    but the loop then reads [validator.kind] unguarded: the field step
    throws, and a schema with such a field does not compile. *)
Theorem C9_absent_validator_aborts_compile :
  getFieldType VUndefined = Normal (VString "unknown")
  /\ getFieldType VNull = Normal (VString "unknown")
  /\ (forall tableName acc fieldName,
        fieldStep tableName acc (fieldName, VUndefined)
        = Throw (TypeError "Cannot read properties of undefined (reading 'kind')"))
  /\ (forall tableName acc fieldName,
        fieldStep tableName acc (fieldName, VNull)
        = Throw (TypeError "Cannot read properties of null (reading 'kind')"))
  /\ generateMermaidFromSchema
       (mkEnv (append "file://") 1718000000000
          (fun _ =>
             Normal (VObject
               [("default",
                 VObject [("tables",
                   VObject [("t",
                     VObject [("validator",
                       VObject [("kind", VString "object");
                                ("fields", VObject [("f", VUndefined)])])])])])])))
       "convex/schema.ts"
     = Throw (mkError "Error"
                ("Failed to load or parse schema: "
                 ++ "Cannot read properties of undefined (reading 'kind')")).
Proof.
  repeat split; try reflexivity; intros t [m rels] f; reflexivity.
Qed.

(** ** Relationships have a referenced table *)

Lemma foldM_invariant {A B} (f : A -> B -> completion A) (I : A -> Prop) :
  (forall a b a', f a b = Normal a' -> I a -> I a') ->
  forall l a a', foldM f a l = Normal a' -> I a -> I a'.
Proof.
  intros Hstep. induction l as [|b l IH]; simpl; intros a a' H Ha.
  - now injection H as <-.
  - destruct (f a b) as [a1|e] eqn:E; [|discriminate]. simpl in H.
    eapply IH; eauto.
Qed.

Lemma fieldStep_refers (t : string) (acc : string * list relationship)
    (entry : string * value) (acc' : string * list relationship) :
  fieldStep t acc entry = Normal acc' ->
  Forall refersToTable (snd acc) -> Forall refersToTable (snd acc').
Proof.
  destruct acc as [m rels], entry as [f v]. unfold fieldStep.
  destruct (getFieldType v) as [ty|e]; [|discriminate]. cbn [bind].
  destruct (getProp v "kind") as [kind|e]; [|discriminate]. cbn [bind].
  destruct (strictEq kind "id"); [|intros [= <-]; auto].
  destruct (getProp v "tableName") as [tn|e]; [|discriminate]. cbn [bind].
  destruct (truthy tn) eqn:Htn; intros [= <-]; auto.
  cbn [snd]. intros H. apply Forall_app. split; [assumption|].
  constructor; [exact Htn | constructor].
Qed.

Lemma tableStep_refers (acc : string * list relationship) (entry : string * value)
    (acc' : string * list relationship) :
  tableStep acc entry = Normal acc' ->
  Forall refersToTable (snd acc) -> Forall refersToTable (snd acc').
Proof.
  destruct acc as [m rels], entry as [t def]. unfold tableStep.
  destruct (getProp def "validator") as [v|e]; [|discriminate]. cbn [bind].
  destruct (getProp v "fields") as [fields|e]; [|discriminate]. cbn [bind].
  destruct (truthy fields).
  - destruct (Object_entries fields) as [entries|e]; [|discriminate]. cbn [bind].
    destruct (foldM (fieldStep t) (m ++ toUpperCase t ++ " {" ++ nl, rels) entries)
      as [acc1|e] eqn:E; [|discriminate].
    cbn [bind]. intros [= <-] H. cbn [snd].
    exact (foldM_invariant _ (fun a => Forall refersToTable (snd a))
             (fieldStep_refers t) _ _ _ E H).
  - cbn [bind]. intros [= <-]. auto.
Qed.

Lemma relSteps_normal (rels : list relationship) :
  forall m m', foldM relStep m rels = Normal m' ->
               Forall (fun r => exists s, to r = VString s) rels.
Proof.
  induction rels as [|r rels IH]; simpl; intros m m' H; [constructor|].
  unfold relStep at 1 in H.
  destruct (to r) as [ | | | | | | s | | ] eqn:E; try discriminate H.
  cbn [bind] in H. constructor; eauto.
Qed.

(** C10. A validator of kind [id] whose [tableName] is absent, empty or
    otherwise falsy is labelled by the [id(...)] rule on the raw value and
    adds nothing to the relationships; and whenever a schema compiles,
    every relationship of the result refers to a table by a non-empty
    name. *)
Theorem C10_relationships_name_a_table :
  (forall tableName mermaid relationships fieldName props,
      lookup "kind" props = VString "id" ->
      truthy (lookup "tableName" props) = false ->
      fieldStep tableName (mermaid, relationships) (fieldName, VObject props)
      = Normal (mermaid ++ "    " ++ ("id(" ++ toStr (lookup "tableName" props) ++ ")")
                ++ " " ++ fieldName ++ nl,
                relationships))
  /\ (forall schema text relationships,
        compileSchema schema = Normal (text, relationships) ->
        Forall (fun r => exists s, to r = VString s /\ s <> "") relationships).
Proof.
  split.
  - intros t m rels f props Hk Hf. unfold fieldStep.
    rewrite getFieldType_id by assumption. cbn [bind getProp toStr].
    rewrite Hk. cbn [strictEq String.eqb Ascii.eqb Bool.eqb]. now rewrite Hf.
  - intros schema text rels. unfold compileSchema.
    destruct (getProp schema "tables") as [tables|e]; [|discriminate]. cbn [bind].
    destruct (Object_entries tables) as [entries|e]; [|discriminate]. cbn [bind].
    destruct (foldM tableStep ("erDiagram" ++ nl, []) entries) as [acc|e] eqn:E;
      [|discriminate].
    cbn [bind].
    destruct (foldM relStep (fst acc) (snd acc)) as [m'|e] eqn:R; [|discriminate].
    cbn [bind]. intros [= _ <-].
    pose proof (foldM_invariant _ (fun a => Forall refersToTable (snd a))
                  tableStep_refers _ _ _ E (Forall_nil _)) as Hrefers.
    pose proof (relSteps_normal _ _ _ R) as Hstr.
    rewrite Forall_forall in *. intros r Hr.
    destruct (Hstr r Hr) as [s Hs]. exists s. split; [assumption|].
    specialize (Hrefers r Hr). unfold refersToTable in Hrefers.
    rewrite Hs in Hrefers. simpl in Hrefers. intros ->. discriminate.
Qed.

Lemma C10_relationships_name_a_table_witness :
  fieldStep "messages" ("erDiagram" ++ nl ++ "MESSAGES {" ++ nl, [])
            ("user", VObject [("kind", VString "id")])
  = Normal ("erDiagram" ++ nl ++ "MESSAGES {" ++ nl ++ "    id(undefined) user" ++ nl, [])
  /\ Forall (fun r => exists s, to r = VString s /\ s <> "")
            [mkRel "messages" (VString "users") "user"].
Proof.
  destruct C10_relationships_name_a_table as [Hfalsy Hcompiled]. split.
  - apply (Hfalsy "messages" ("erDiagram" ++ nl ++ "MESSAGES {" ++ nl) []
             "user" [("kind", VString "id")]); reflexivity.
  - apply (Hcompiled (encodeSchema testSchema)
             ("erDiagram" ++ nl ++ entityBlocks testSchema
              ++ "USERS ||--o{ MESSAGES : user" ++ nl)).
    reflexivity.
Defined.

(** * Further properties of the code *)

(** ** The compiler end to end *)

(** X1. Whenever the loader yields a module whose default export is the
    object of a typed schema, [generateMermaidFromSchema] resolves, and
    the text is the header, one entity block per table in order, and one
    line per identifier reference with a non-empty table name, in the
    order of discovery. *)
Theorem X1_typed_schema_diagram (env : Env) (path : string) (schemaModule : value)
    (S : Schema) :
  import env (schemaUrl env path) = Normal schemaModule ->
  getProp schemaModule "default" = Normal (encodeSchema S) ->
  generateMermaidFromSchema env path
  = Normal ("erDiagram" ++ nl ++ entityBlocks S
            ++ relationshipLines (schemaRelationships S)).
Proof.
  intros Himport Hdefault. unfold generateMermaidFromSchema.
  rewrite Himport. cbn [bind]. rewrite Hdefault. cbn [bind].
  rewrite compileSchema_encode. reflexivity.
Qed.

Lemma X1_typed_schema_diagram_witness :
  generateMermaidFromSchema
    (mkEnv (append "file://") 1718000000000
       (fun _ => Normal (VObject [("default", encodeSchema testSchema)])))
    "convex/schema.ts"
  = Normal ("erDiagram" ++ nl ++ entityBlocks testSchema
            ++ relationshipLines (schemaRelationships testSchema)).
Proof.
  apply (X1_typed_schema_diagram _ "convex/schema.ts"
           (VObject [("default", encodeSchema testSchema)]) testSchema);
    reflexivity.
Defined.

(** ** The shape of every diagram *)

Lemma fieldStep_appends (t : string) (acc : string * list relationship)
    (entry : string * value) (acc' : string * list relationship) :
  fieldStep t acc entry = Normal acc' -> exists x, fst acc' = fst acc ++ x.
Proof.
  destruct acc as [m rels], entry as [f v]. unfold fieldStep.
  destruct (getFieldType v) as [ty|e]; [|discriminate]. cbn [bind].
  destruct (getProp v "kind") as [kind|e]; [|discriminate]. cbn [bind].
  destruct (strictEq kind "id"); [|intros [= <-]; cbn [fst]; eauto].
  destruct (getProp v "tableName") as [tn|e]; [|discriminate]. cbn [bind].
  destruct (truthy tn); intros [= <-]; cbn [fst]; eauto.
Qed.

Lemma appends_trans (m : string) (a a' : string * list relationship) :
  (exists x, fst a = m ++ x) -> (exists y, fst a' = fst a ++ y) ->
  exists z, fst a' = m ++ z.
Proof.
  intros [x Hx] [y Hy]. exists (x ++ y). now rewrite Hy, Hx, append_assoc.
Qed.

Lemma tableStep_appends (acc : string * list relationship) (entry : string * value)
    (acc' : string * list relationship) :
  tableStep acc entry = Normal acc' -> exists x, fst acc' = fst acc ++ x.
Proof.
  destruct acc as [m rels], entry as [t def]. unfold tableStep.
  destruct (getProp def "validator") as [v|e]; [|discriminate]. cbn [bind].
  destruct (getProp v "fields") as [fields|e]; [|discriminate]. cbn [bind].
  destruct (truthy fields).
  - destruct (Object_entries fields) as [entries|e]; [|discriminate]. cbn [bind].
    destruct (foldM (fieldStep t) (m ++ toUpperCase t ++ " {" ++ nl, rels) entries)
      as [acc1|e] eqn:E; [|discriminate].
    cbn [bind]. intros [= <-]. cbn [fst].
    assert (H : exists x, fst acc1 = (m ++ toUpperCase t ++ " {" ++ nl) ++ x).
    { apply (foldM_invariant _
               (fun a => exists x, fst a = (m ++ toUpperCase t ++ " {" ++ nl) ++ x)
               (fun a b a' Hs Ha => appends_trans _ a a' Ha (fieldStep_appends t a b a' Hs))
               _ _ _ E).
      exists "". cbn [fst]. now rewrite append_nil_r. }
    destruct H as [x Hx]. rewrite Hx.
    exists (toUpperCase t ++ " {" ++ nl ++ x ++ "}" ++ nl).
    now rewrite !append_assoc.
  - cbn [bind]. intros [= <-]. cbn [fst]. rewrite append_assoc. eauto.
Qed.

(** X3. On every schema value on which the compiler returns, the text is
    the header [erDiagram], then what the table loop wrote, then exactly
    one line per recorded relationship, in order, and nothing after. *)
Theorem X3_diagram_shape (schema : value) (text : string)
    (relationships : list relationship) :
  compileSchema schema = Normal (text, relationships) ->
  exists blocks,
    text = "erDiagram" ++ nl ++ blocks ++ relationshipLines relationships.
Proof.
  unfold compileSchema.
  destruct (getProp schema "tables") as [tables|e]; [|discriminate]. cbn [bind].
  destruct (Object_entries tables) as [entries|e]; [|discriminate]. cbn [bind].
  destruct (foldM tableStep ("erDiagram" ++ nl, []) entries) as [acc|e] eqn:E;
    [|discriminate].
  cbn [bind].
  destruct (foldM relStep (fst acc) (snd acc)) as [m'|e] eqn:R; [|discriminate].
  cbn [bind]. intros [= <- <-].
  assert (H : exists x, fst acc = ("erDiagram" ++ nl) ++ x).
  { apply (foldM_invariant _ (fun a => exists x, fst a = ("erDiagram" ++ nl) ++ x)
             (fun a b a' Hs Ha => appends_trans _ a a' Ha (tableStep_appends a b a' Hs))
             _ _ _ E).
    exists "". cbn [fst]. now rewrite append_nil_r. }
  destruct H as [blocks Hb]. exists blocks.
  rewrite (relSteps_strings _ (relSteps_normal _ _ _ R)) in R.
  injection R as <-. rewrite Hb. now rewrite !append_assoc.
Qed.

Lemma X3_diagram_shape_witness :
  exists blocks,
    "erDiagram" ++ nl ++ "T {" ++ nl ++ "    id(u) f" ++ nl ++ "}" ++ nl
    ++ "U ||--o{ T : f" ++ nl
    = "erDiagram" ++ nl ++ blocks
      ++ relationshipLines [mkRel "t" (VString "u") "f"].
Proof.
  apply (X3_diagram_shape (encodeSchema [("t", [("f", v_id "u")])])).
  reflexivity.
Defined.

(** ** Tables without fields, tables without a validator *)

Lemma tableStep_fieldsAbsent (acc : string * list relationship) (t : string)
    (def : value) :
  fieldsAbsent def -> tableStep acc (t, def) = tableStep acc (t, encodeTable []).
Proof.
  unfold fieldsAbsent, tableStep. destruct acc as [m rels].
  destruct (getProp def "validator") as [v|e]; [|contradiction]. cbn [bind].
  destruct (getProp v "fields") as [fields|e]; [|contradiction]. cbn [bind].
  intros H. rewrite H. reflexivity.
Qed.

Lemma foldM_ext_Forall2 {A B} (f : A -> B -> completion A) (l l' : list B) :
  Forall2 (fun b b' => forall a, f a b = f a b') l l' ->
  forall a, foldM f a l = foldM f a l'.
Proof.
  induction 1 as [|b b' l l' Hb _ IH]; intros a; simpl; [reflexivity|].
  rewrite Hb. destruct (f a b'); simpl; auto.
Qed.

(** X4. A table whose validator has no field collection ([fields] absent
    or otherwise falsy) is not an error: a schema of such tables compiles
    exactly like the schema of the same tables with no fields. *)
Theorem X4_missing_fields_is_an_empty_table (schema : value)
    (entries : list (string * value)) :
  getProp schema "tables" = Normal (VObject entries) ->
  Forall (fun entry => fieldsAbsent (snd entry)) entries ->
  compileSchema schema
  = compileSchema (encodeSchema (map (fun entry => (fst entry, [])) entries)).
Proof.
  intros Ht Hall. unfold compileSchema at 1 2. rewrite Ht.
  cbn [encodeSchema getProp lookup String.eqb Ascii.eqb Bool.eqb bind Object_entries].
  rewrite (foldM_ext_Forall2 tableStep entries
             (encodeTables (map (fun entry => (fst entry, [])) entries)));
    [reflexivity|].
  clear Ht. induction Hall as [|[t def] entries Hdef _ IH]; [constructor|].
  simpl. constructor; [|exact IH].
  intros a. now apply tableStep_fieldsAbsent.
Qed.

Lemma X4_missing_fields_is_an_empty_table_witness :
  compileSchema
    (VObject [("tables",
               VObject [("users",
                         VObject [("validator", encode (v_union [v_object; v_object]))])])])
  = compileSchema (encodeSchema [("users", [])]).
Proof.
  apply (X4_missing_fields_is_an_empty_table _
           [("users", VObject [("validator", encode (v_union [v_object; v_object]))])]).
  - reflexivity.
  - repeat constructor.
Defined.

Lemma foldM_throws {A B} (f : A -> B -> completion A) (l : list B) (b : B) :
  In b l -> (forall a, exists e, f a b = Throw e) ->
  forall a, exists e, foldM f a l = Throw e.
Proof.
  intros Hin Hb. induction l as [|x l IH]; [contradiction|].
  intros a. simpl. destruct Hin as [->|Hin].
  - destruct (Hb a) as [e He]. rewrite He. simpl. eauto.
  - destruct (f a x) as [a'|e]; simpl; eauto.
Qed.

(** X5. A schema with a table whose definition has no validator
    ([validator] absent or [null], or the definition itself [undefined] or
    [null]) does not compile, wherever the table stands. *)
Theorem X5_table_without_validator_fails (schema : value)
    (entries : list (string * value)) (t : string) (def : value) :
  getProp schema "tables" = Normal (VObject entries) ->
  In (t, def) entries ->
  validatorMissing def ->
  exists e, compileSchema schema = Throw e.
Proof.
  intros Ht Hin Hmiss. unfold compileSchema. rewrite Ht. cbn [bind Object_entries].
  destruct (foldM_throws tableStep entries (t, def) Hin) with (a := ("erDiagram" ++ nl, @nil relationship))
    as [e He].
  - intros [m rels]. unfold tableStep, validatorMissing in *.
    destruct (getProp def "validator") as [v|e]; [|simpl; eauto].
    destruct v; try discriminate Hmiss; simpl; eauto.
  - rewrite He. simpl. eauto.
Qed.

Lemma X5_table_without_validator_fails_witness :
  exists e,
    compileSchema
      (VObject [("tables", VObject [("users", encodeTable []); ("posts", VObject [])])])
    = Throw e.
Proof.
  apply (X5_table_without_validator_fails _
           [("users", encodeTable []); ("posts", VObject [])] "posts" (VObject [])).
  - reflexivity.
  - right. now left.
  - reflexivity.
Defined.

(** X6. A schema in which some table has a field whose validator is
    [undefined] or [null] does not compile, wherever the table and the
    field stand: the loop reads [validator.kind] of every field. *)
Theorem X6_absent_field_validator_fails (schema : value)
    (entries : list (string * value)) (t : string) (def v fields : value)
    (fieldEntries : list (string * value)) (f : string) (x : value) :
  getProp schema "tables" = Normal (VObject entries) ->
  In (t, def) entries ->
  getProp def "validator" = Normal v ->
  getProp v "fields" = Normal fields ->
  truthy fields = true ->
  Object_entries fields = Normal fieldEntries ->
  In (f, x) fieldEntries ->
  nullish x = true ->
  exists e, compileSchema schema = Throw e.
Proof.
  intros Ht Hin Hv Hf Htruthy Hentries Hfield Hx.
  unfold compileSchema. rewrite Ht. cbn [bind Object_entries].
  destruct (foldM_throws tableStep entries (t, def) Hin) with (a := ("erDiagram" ++ nl, @nil relationship))
    as [e He].
  - intros [m rels]. unfold tableStep. rewrite Hv. cbn [bind]. rewrite Hf. cbn [bind].
    rewrite Htruthy, Hentries. cbn [bind].
    destruct (foldM_throws (fieldStep t) fieldEntries (f, x) Hfield)
      with (a := (m ++ toUpperCase t ++ " {" ++ nl, rels)) as [e He].
    + intros [m' rels']. destruct x; try discriminate Hx; simpl; eauto.
    + rewrite He. simpl. eauto.
  - rewrite He. simpl. eauto.
Qed.

Lemma X6_absent_field_validator_fails_witness :
  exists e,
    compileSchema
      (VObject [("tables",
         VObject [("users",
           VObject [("validator",
             VObject [("kind", VString "object");
                      ("fields", VObject [("name", encode v_string);
                                          ("age", VUndefined)])])])])])
    = Throw e.
Proof.
  eapply (X6_absent_field_validator_fails _ _ "users" _ _ _ _ "age" VUndefined).
  - reflexivity.
  - now left.
  - reflexivity.
  - reflexivity.
  - reflexivity.
  - reflexivity.
  - right. now left.
  - reflexivity.
Defined.

(** ** What a label depends on *)

(** X7. The label of a validator object depends only on its properties
    [kind], [tableName], [value], [element], [key] and [members]: two
    objects that agree on these get the same label, whatever else they
    hold (an optional field is labelled like a required one). *)
Theorem X7_label_ignores_other_properties (props props' : list (string * value)) :
  (forall key, In key labelProperties -> lookup key props = lookup key props') ->
  getFieldType (VObject props) = getFieldType (VObject props').
Proof.
  intros H.
  pose (n := Nat.max (height (VObject props)) (height (VObject props'))).
  assert (E : getFieldType_rec (S n) (VObject props)
              = getFieldType_rec (S n) (VObject props')).
  { rewrite !getFieldType_rec_unfold.
    rewrite (H "kind"), (H "tableName"), (H "value"), (H "element"),
      (H "key"), (H "members") by (simpl; tauto).
    reflexivity. }
  rewrite !getFieldType_rec_enough in E by (subst n; lia).
  now injection E.
Qed.

Lemma X7_label_ignores_other_properties_witness :
  getFieldType (VObject [("isOptional", VString "optional"); ("kind", VString "int64")])
  = getFieldType (VObject [("kind", VString "int64")]).
Proof.
  apply X7_label_ignores_other_properties.
  intros key [<-|[<-|[<-|[<-|[<-|[<-|[]]]]]]]; reflexivity.
Defined.

(** ** The command line *)

Lemma prefix_nil (s : string) : String.prefix "" s = true.
Proof. now destruct s. Qed.

(** X8. The script goes on to print or to serve only with a schema path
    that exists, is not empty and does not start with two dashes, and
    only when [--help] was not given; it prints exactly when
    [--print-diagram] was given. *)
Theorem X8_cli_runs_on_an_existing_path (argv : list string)
    (existsSync : string -> bool) (p : string) :
  cli argv existsSync = PrintDiagram p \/ cli argv existsSync = Serve p ->
  existsSync p = true
  /\ p <> ""
  /\ startsWith p "--" = false
  /\ includes argv "--help" = false
  /\ (cli argv existsSync = PrintDiagram p <-> includes argv "--print-diagram" = true).
Proof.
  unfold cli, printDiagramFlag.
  destruct (includes argv "--help"); [intros [H|H]; discriminate H|].
  assert (Hp : schemaFilePath argv <> "" /\ startsWith (schemaFilePath argv) "--" = false).
  { unfold schemaFilePath. destruct (nth_error argv 2) as [a|]; [|split; [discriminate|reflexivity]].
    destruct (String.eqb_spec a ""); cbn [orb]; [split; [discriminate|reflexivity]|].
    destruct (startsWith a "--") eqn:E; [split; [discriminate|reflexivity]|].
    now split. }
  destruct (existsSync (schemaFilePath argv)) eqn:Hex; cbn [negb];
    [|intros [H|H]; discriminate H].
  destruct (includes argv "--print-diagram");
    intros [H|H]; try discriminate H; injection H as <-;
    (repeat split; try tauto; try assumption; try discriminate; auto).
Qed.

Lemma X8_cli_runs_on_an_existing_path_witness :
  let argv := ["node"; "convex-viz"; "db/schema.ts"; "--print-diagram"] in
  let existsSync := String.eqb "db/schema.ts" in
  existsSync "db/schema.ts" = true
  /\ "db/schema.ts" <> ""
  /\ startsWith "db/schema.ts" "--" = false
  /\ includes argv "--help" = false
  /\ (cli argv existsSync = PrintDiagram "db/schema.ts"
      <-> includes argv "--print-diagram" = true).
Proof.
  intros argv existsSync.
  apply (X8_cli_runs_on_an_existing_path argv existsSync "db/schema.ts").
  left. reflexivity.
Defined.

(** ** Static files and their content type *)

Lemma String_split_cons (sep : ascii) (s : string) :
  exists seg rest, String_split sep s = seg :: rest.
Proof.
  destruct s as [|c s]; cbn [String_split]; [eauto|].
  destruct (Ascii.eqb c sep); [eauto|].
  destruct (String_split sep s); eauto.
Qed.

Lemma last_String_split_app (sep : ascii) (a b d : string) :
  last (String_split sep (a ++ String sep b)) d = last (String_split sep b) d.
Proof.
  assert (Hlast : forall x seg rest, last (x :: seg :: rest) d = last (seg :: rest) d)
    by reflexivity.
  assert (Stwo : forall x, exists s1 s2 rest,
             String_split sep (x ++ String sep b) = s1 :: s2 :: rest).
  { intros x. induction x as [|c x IH]; cbn [String_split append].
    - rewrite Ascii.eqb_refl. destruct (String_split_cons sep b) as (seg & rest & ->). eauto.
    - destruct IH as (s1 & s2 & rest & ->). destruct (Ascii.eqb c sep); eauto. }
  induction a as [|c a IH]; cbn [String_split append].
  - rewrite Ascii.eqb_refl. destruct (String_split_cons sep b) as (seg & rest & ->).
    reflexivity.
  - destruct (Stwo a) as (s1 & s2 & rest & E). rewrite E in *.
    destruct (Ascii.eqb c sep); rewrite Hlast; rewrite Hlast in IH; exact IH.
Qed.

Lemma String_split_dotless (e : string) :
  dotless e = true -> String_split "."%char e = [e].
Proof.
  unfold dotless.
  induction e as [|c e IH]; cbn [String_split list_ascii_of_string existsb];
    [reflexivity|].
  rewrite negb_orb. intros H. apply andb_prop in H as [Hc He].
  apply negb_true_iff in Hc. rewrite Ascii.eqb_sym, Hc.
  now rewrite IH.
Qed.

(** X10. The content type of a static file depends only on what follows
    the last dot of its path: [html], [js], [css] and [svg] get their own
    type, anything else [application/octet-stream]; a path without a dot
    is its own extension. *)
Theorem X10_content_type_by_last_extension (base ext : string) :
  dotless ext = true ->
  contentTypeOf (base ++ "." ++ ext) = contentTypeOf ext
  /\ contentTypeOf ext
     = if ext =? "html" then "text/html"
       else if ext =? "js" then "application/javascript"
       else if ext =? "css" then "text/css"
       else if ext =? "svg" then "image/svg+xml"
       else "application/octet-stream".
Proof.
  intros H. unfold contentTypeOf. cbn [append].
  rewrite last_String_split_app, String_split_dotless by assumption.
  split; reflexivity.
Qed.

Lemma X10_content_type_by_last_extension_witness :
  contentTypeOf ("vendor/svg-pan-zoom.min" ++ "." ++ "js") = contentTypeOf "js"
  /\ contentTypeOf "js"
     = if "js" =? "html" then "text/html"
       else if "js" =? "js" then "application/javascript"
       else if "js" =? "css" then "text/css"
       else if "js" =? "svg" then "image/svg+xml"
       else "application/octet-stream".
Proof.
  apply (X10_content_type_by_last_extension "vendor/svg-pan-zoom.min" "js").
  reflexivity.
Defined.

(** ** The request handler *)

(** X12. A request for [/name], where [name] is not empty and the path
    is none of [/schema], [/ws-client.js] and [/], is answered from the
    public directory: the file's bytes with the content type of its
    extension when it can be read, and 404 [Not Found] when it cannot. *)
Theorem X12_static_route (env : Env) (schemaPath : string)
    (readPublic : string -> option string) (name : string) :
  name <> "" -> name <> "schema" -> name <> "ws-client.js" ->
  requestHandler env schemaPath readPublic ("/" ++ name)
  = match readPublic name with
    | Some data => Normal (mkResponse 200 (Some (contentTypeOf name)) (File data))
    | None => Normal (mkResponse 404 None (Text "Not Found"))
    end.
Proof.
  intros Hne Hs Hw. unfold requestHandler.
  assert (E1 : ("/" ++ name =? "/schema") = false).
  { apply String.eqb_neq. intros [= H]. contradiction. }
  assert (E2 : ("/" ++ name =? "/ws-client.js") = false).
  { apply String.eqb_neq. intros [= H]. contradiction. }
  assert (E3 : ("/" ++ name =? "/") = false).
  { apply String.eqb_neq. intros [= H]. contradiction. }
  rewrite E1, E2, E3. cbv zeta.
  assert (E4 : startsWith ("/" ++ name) "/" = true).
  { unfold startsWith. simpl. apply prefix_nil. }
  rewrite E4. cbn [slice1 append].
  apply String.eqb_neq in Hne. rewrite Hne.
  unfold serveStaticFile. now destruct (readPublic name).
Qed.

Lemma X12_static_route_witness :
  let readPublic := fun p => if p =? "style.css" then Some "body{}" else None in
  requestHandler (mkEnv (append "file://") 1718000000000 (fun _ => Normal VUndefined))
                 "convex/schema.ts" readPublic ("/" ++ "style.css")
  = match readPublic "style.css" with
    | Some data => Normal (mkResponse 200 (Some (contentTypeOf "style.css")) (File data))
    | None => Normal (mkResponse 404 None (Text "Not Found"))
    end.
Proof.
  intros readPublic.
  apply (X12_static_route _ "convex/schema.ts" readPublic "style.css"); discriminate.
Defined.

(** ** A new connection *)

(** X13. A new connection makes the server compile the schema afresh and
    send the text to the new socket alone, once, if that socket is open;
    no other socket receives anything, and nothing is sent when the
    schema does not compile. *)
Theorem X13_new_connection_snapshot (env : Env) (path : string) (ws : WebSocket)
    (log : list (nat * string)) :
  match generateMermaidFromSchema env path with
  | Normal mermaid =>
      exists sent,
        onConnection env path ws log = Normal (log ++ sent)%list
        /\ sentTo (socket ws) sent
           = (if (readyState ws =? 1)%Z then [mermaid] else [])
        /\ forall s, s <> socket ws -> sentTo s sent = []
  | Throw e => onConnection env path ws log = Throw e
  end.
Proof.
  unfold onConnection.
  destruct (generateMermaidFromSchema env path) as [m|e]; cbn [bind]; [|reflexivity].
  destruct (readyState ws =? 1)%Z.
  - exists [(socket ws, m)]. split; [reflexivity|]. unfold sentTo. simpl.
    rewrite Nat.eqb_refl. split; [reflexivity|].
    intros s Hs. destruct (Nat.eqb_spec (socket ws) s); [congruence | reflexivity].
  - exists []. split; [now rewrite app_nil_r|]. now split.
Qed.

(** ** The order of a broadcast *)

(** X14. A broadcast appends to the log one message per open client, all
    carrying the freshly compiled text, in the iteration order of the
    client set; when the schema does not compile it rejects and sends
    nothing. *)
Theorem X14_broadcast_order (env : Env) (path : string) (clients : list WebSocket)
    (log : list (nat * string)) :
  broadcastMermaid env path clients log
  = match generateMermaidFromSchema env path with
    | Normal mermaid =>
        Normal (log ++ map (fun c => (socket c, mermaid)) (filter isOpen clients))%list
    | Throw e => Throw e
    end.
Proof.
  unfold broadcastMermaid.
  destruct (generateMermaidFromSchema env path) as [m|e]; cbn [bind]; [|reflexivity].
  rewrite broadcast_loop. do 2 f_equal.
  induction clients as [|c clients IH]; simpl; [reflexivity|].
  unfold isOpen at 1. rewrite IH. now destruct (readyState c =? 1)%Z.
Qed.

(** ** Unions without a member list *)

(** X15. A validator of kind [union] whose [members] is not an array
    (absent, say) has no label: [getFieldType] throws a [TypeError]. *)
Theorem X15_union_without_members_throws (props : list (string * value)) :
  lookup "kind" props = VString "union" ->
  isArray (lookup "members" props) = false ->
  exists msg, getFieldType (VObject props) = Throw (TypeError msg).
Proof.
  intros Hk Hm. rewrite getFieldType_object, getFieldType_rec_unfold, Hk.
  cbn [String.eqb Ascii.eqb Bool.eqb].
  destruct (lookup "members" props); try discriminate Hm; cbn; eauto.
Qed.

Lemma X15_union_without_members_throws_witness :
  exists msg, getFieldType (VObject [("kind", VString "union")]) = Throw (TypeError msg).
Proof.
  apply (X15_union_without_members_throws [("kind", VString "union")]); reflexivity.
Defined.

(** ** Where relationships come from *)

Lemma foldM_invariant_In {A B} (f : A -> B -> completion A) (I : A -> Prop)
    (l : list B) :
  (forall a b a', In b l -> f a b = Normal a' -> I a -> I a') ->
  forall a a', foldM f a l = Normal a' -> I a -> I a'.
Proof.
  induction l as [|b l IH]; simpl; intros Hstep a a' H Ha.
  - now injection H as <-.
  - destruct (f a b) as [a1|e] eqn:E; [|discriminate]. simpl in H.
    apply (IH (fun a b a' Hb => Hstep a b a' (or_intror Hb)) a1 a' H).
    exact (Hstep a b a1 (or_introl eq_refl) E Ha).
Qed.

Lemma fieldStep_from (t : string) (P : relationship -> Prop)
    (acc : string * list relationship) (entry : string * value)
    (acc' : string * list relationship) :
  (forall r, from r = t -> P r) ->
  fieldStep t acc entry = Normal acc' ->
  Forall P (snd acc) -> Forall P (snd acc').
Proof.
  intros HP. destruct acc as [m rels], entry as [f v]. unfold fieldStep.
  destruct (getFieldType v) as [ty|e]; [|discriminate]. cbn [bind].
  destruct (getProp v "kind") as [kind|e]; [|discriminate]. cbn [bind].
  destruct (strictEq kind "id"); [|intros [= <-]; auto].
  destruct (getProp v "tableName") as [tn|e]; [|discriminate]. cbn [bind].
  destruct (truthy tn); intros [= <-]; auto.
  cbn [snd]. intros H. apply Forall_app. split; [assumption|].
  constructor; [now apply HP | constructor].
Qed.

Lemma tableStep_from (P : relationship -> Prop)
    (acc : string * list relationship) (entry : string * value)
    (acc' : string * list relationship) :
  (forall r, from r = fst entry -> P r) ->
  tableStep acc entry = Normal acc' ->
  Forall P (snd acc) -> Forall P (snd acc').
Proof.
  intros HP. destruct acc as [m rels], entry as [t def]. unfold tableStep.
  destruct (getProp def "validator") as [v|e]; [|discriminate]. cbn [bind].
  destruct (getProp v "fields") as [fields|e]; [|discriminate]. cbn [bind].
  destruct (truthy fields).
  - destruct (Object_entries fields) as [entries|e]; [|discriminate]. cbn [bind].
    destruct (foldM (fieldStep t) (m ++ toUpperCase t ++ " {" ++ nl, rels) entries)
      as [acc1|e] eqn:E; [|discriminate].
    cbn [bind]. intros [= <-] H. cbn [snd].
    exact (foldM_invariant _ (fun a => Forall P (snd a))
             (fun a b a' => fieldStep_from t P a b a' HP) _ _ _ E H).
  - cbn [bind]. intros [= <-]. auto.
Qed.

(** X16. Whenever a schema compiles, every recorded relationship starts
    from one of the schema's own tables: [from] is a key of
    [schema.tables], whether or not [to] is. *)
Theorem X16_relationships_start_from_a_table (schema tables : value)
    (entries : list (string * value)) (text : string)
    (relationships : list relationship) :
  getProp schema "tables" = Normal tables ->
  Object_entries tables = Normal entries ->
  compileSchema schema = Normal (text, relationships) ->
  Forall (fun r => In (from r) (map fst entries)) relationships.
Proof.
  intros Ht He. unfold compileSchema. rewrite Ht. cbn [bind]. rewrite He. cbn [bind].
  destruct (foldM tableStep ("erDiagram" ++ nl, []) entries) as [acc|e] eqn:E;
    [|discriminate].
  cbn [bind].
  destruct (foldM relStep (fst acc) (snd acc)) as [m'|e]; [|discriminate].
  cbn [bind]. intros [= _ <-].
  apply (foldM_invariant_In tableStep
           (fun a => Forall (fun r => In (from r) (map fst entries)) (snd a))
           entries) with (a := ("erDiagram" ++ nl, [])); [|exact E|constructor].
  intros a b a' Hb Hs. apply (tableStep_from _ a b a'); [|exact Hs].
  intros r ->. now apply in_map.
Qed.

Lemma X16_relationships_start_from_a_table_witness :
  Forall (fun r => In (from r) (map fst (encodeTables testSchema)))
         [mkRel "messages" (VString "users") "user"].
Proof.
  apply (X16_relationships_start_from_a_table (encodeSchema testSchema)
           (VObject (encodeTables testSchema)) (encodeTables testSchema)
           ("erDiagram" ++ nl ++ entityBlocks testSchema
            ++ "USERS ||--o{ MESSAGES : user" ++ nl));
    reflexivity.
Defined.

(** ** Determinism: the diagram is a function of what the compiler reads *)

Lemma sameValidator_toStr (v v' : value) :
  sameValidator v v' -> toStr v = toStr v'.
Proof. intros H. now inversion H. Qed.

Lemma mapF_Forall2 {A B} (f : A -> fuelled B) (l l' : list A) :
  Forall2 (fun a a' => f a = f a') l l' -> mapF f l = mapF f l'.
Proof.
  induction 1 as [|a a' l l' Ha _ IH]; simpl; [reflexivity|].
  now rewrite Ha, IH.
Qed.

Lemma sameValidator_getFieldType_rec (n : nat) :
  forall v v', sameValidator v v' -> getFieldType_rec n v = getFieldType_rec n v'.
Proof.
  induction n as [|n IH]; intros v v' H; [reflexivity|].
  inversion H as [|props props' Hkind Htable Hvalue Helement Hkey Hmembers]; subst;
    [reflexivity|].
  rewrite !getFieldType_rec_unfold.
  rewrite <- Hkind, <- Htable, <- (sameValidator_toStr _ _ Hvalue).
  rewrite <- (IH _ _ Hvalue), <- (IH _ _ Helement), <- (IH _ _ Hkey).
  destruct (lookup "kind" props); try reflexivity.
  kind_cases; try reflexivity.
  destruct Hmembers as [<-|(ms & ms' & -> & -> & Hms)]; [reflexivity|].
  cbn [Array_map]. rewrite (mapF_Forall2 _ ms ms'); [reflexivity|].
  clear - IH Hms. induction Hms; constructor; auto.
Qed.

Lemma sameValidator_getFieldType (v v' : value) :
  sameValidator v v' -> getFieldType v = getFieldType v'.
Proof.
  intros H.
  pose (n := S (Nat.max (height v) (height v'))).
  pose proof (sameValidator_getFieldType_rec n v v' H) as E.
  rewrite !getFieldType_rec_enough in E by (subst n; lia).
  now injection E.
Qed.

Lemma sameValidator_getProp (key : string) (v v' : value) :
  sameValidator v v' -> key = "kind" \/ key = "tableName" ->
  getProp v key = getProp v' key.
Proof.
  intros H Hkey.
  inversion H as [|props props' Hkind Htable _ _ _ _]; subst; [reflexivity|].
  simpl. destruct Hkey as [->| ->]; congruence.
Qed.

Lemma sameValidator_fieldStep (t : string) (acc : string * list relationship)
    (f : string) (v v' : value) :
  sameValidator v v' -> fieldStep t acc (f, v) = fieldStep t acc (f, v').
Proof.
  intros H. unfold fieldStep. destruct acc as [m rels].
  rewrite (sameValidator_getFieldType v v' H).
  rewrite (sameValidator_getProp "kind" v v' H) by now left.
  rewrite (sameValidator_getProp "tableName" v v' H) by now right.
  reflexivity.
Qed.

Lemma entrywise_foldM {A} (R : value -> value -> Prop)
    (f : A -> string * value -> completion A) (props props' : list (string * value)) :
  (forall a k v v', R v v' -> f a (k, v) = f a (k, v')) ->
  entrywise R props props' ->
  forall a, foldM f a props = foldM f a props'.
Proof.
  intros Hf H. apply foldM_ext_Forall2.
  induction H as [|[k v] [k' v'] props props' [Hk Hv] _ IH]; constructor; [|exact IH].
  simpl in Hk, Hv. subst k'. intros a. now apply Hf.
Qed.

Lemma sameTable_tableStep (acc : string * list relationship) (t : string)
    (def def' : value) :
  sameTable def def' -> tableStep acc (t, def) = tableStep acc (t, def').
Proof.
  intros [<-|(ds & ds' & -> & -> & Hv)]; [reflexivity|].
  unfold tableStep. destruct acc as [m rels]. cbn [getProp bind].
  unfold atKey in Hv.
  destruct Hv as [<-|(vs & vs' & -> & -> & Hf)]; [reflexivity|].
  cbn [getProp bind]. unfold atKey in Hf.
  destruct Hf as [<-|(fs & fs' & -> & -> & Hfs)]; [reflexivity|].
  cbn [truthy Object_entries bind].
  rewrite (entrywise_foldM sameValidator (fieldStep t) fs fs'); [reflexivity| |exact Hfs].
  intros a k v v' Hvv. now apply sameValidator_fieldStep.
Qed.

Lemma sameSchema_compileSchema (schema schema' : value) :
  sameSchema schema schema' -> compileSchema schema = compileSchema schema'.
Proof.
  intros [<-|(ps & ps' & -> & -> & Ht)]; [reflexivity|].
  unfold compileSchema. cbn [getProp bind]. unfold atKey in Ht.
  destruct Ht as [<-|(ts & ts' & -> & -> & Hts)]; [reflexivity|].
  cbn [Object_entries bind].
  rewrite (entrywise_foldM sameTable tableStep ts ts'); [reflexivity| |exact Hts].
  intros a k v v' Hvv. now apply sameTable_tableStep.
Qed.

(** C2. Two runs whose loads settle alike settle with the same result,
    byte for byte, whatever their clock readings and paths.  Loads are
    alike when they reject with the same error or yield schema objects
    alike in everything lines 55-98 read: the tables and their fields in
    order and, of each validator, its kind, table name, literal value,
    element, key, value and members.  In particular two runs on equal
    schema objects produce equal diagram text, and no other property of
    the objects can change it. *)
Theorem C2_determinism (env1 env2 : Env) (path1 path2 : string) :
  sameLoad (import env1 (schemaUrl env1 path1)) (import env2 (schemaUrl env2 path2)) ->
  generateMermaidFromSchema env1 path1 = generateMermaidFromSchema env2 path2.
Proof.
  unfold generateMermaidFromSchema, sameLoad.
  destruct (import env1 (schemaUrl env1 path1)) as [module1|e1],
           (import env2 (schemaUrl env2 path2)) as [module2|e2];
    try contradiction; [|now intros <-].
  intros Hm. cbn [bind].
  destruct Hm as [<-|(ps & ps' & -> & -> & Hs)]; [reflexivity|].
  cbn [getProp bind]. unfold atKey in Hs.
  now rewrite (sameSchema_compileSchema _ _ Hs).
Qed.

Lemma C2_determinism_witness :
  let module1 := VObject [("default", encodeSchema [("users", [("name", v_string)])])] in
  let module2 :=
    VObject
      [("default",
        VObject
          [("tables",
            VObject
              [("users",
                VObject
                  [("indexes", VArray []);
                   ("validator",
                    VObject
                      [("isOptional", VString "required");
                       ("fields",
                        VObject
                          [("name",
                            VObject [("isOptional", VString "optional");
                                     ("kind", VString "string")])])])])]);
           ("schemaValidation", VBoolean true)])] in
  generateMermaidFromSchema
    (mkEnv (append "file://") 1718000000000 (fun _ => Normal module1)) "convex/schema.ts"
  = generateMermaidFromSchema
      (mkEnv (append "file:///srv/") 1718000000042 (fun _ => Normal module2)) "schema.ts".
Proof.
  intros module1 module2.
  apply (C2_determinism
           (mkEnv (append "file://") 1718000000000 (fun _ => Normal module1))
           (mkEnv (append "file:///srv/") 1718000000042 (fun _ => Normal module2))).
  cbn [sameLoad import].
  right. do 2 eexists. split; [reflexivity|]. split; [reflexivity|].
  right. do 2 eexists. split; [reflexivity|]. split; [reflexivity|].
  right. do 2 eexists. split; [reflexivity|]. split; [reflexivity|].
  constructor; [|constructor]. split; [reflexivity|].
  right. do 2 eexists. split; [reflexivity|]. split; [reflexivity|].
  right. do 2 eexists. split; [reflexivity|]. split; [reflexivity|].
  right. do 2 eexists. split; [reflexivity|]. split; [reflexivity|].
  constructor; [|constructor]. split; [reflexivity|].
  apply sameValidator_object; try reflexivity; try apply sameValidator_same.
  now left.
Defined.

(** ** What can be thrown, and what becomes of it *)

Ltac type_error :=
  match goal with
  | |- isTypeError _ => eexists; split; [reflexivity | discriminate]
  end.

Lemma getProp_throws (v : value) (key : string) (e : error) :
  getProp v key = Throw e -> isTypeError e.
Proof. destruct v; simpl; intros [= <-]; type_error. Qed.

Lemma Object_entries_throws (v : value) (e : error) :
  Object_entries v = Throw e -> isTypeError e.
Proof. destruct v; simpl; intros [= <-]; type_error. Qed.

Lemma mapF_throws {A B} (f : A -> fuelled B) (l : list A) (e : error) :
  mapF f l = Some (Throw e) -> exists x, In x l /\ f x = Some (Throw e).
Proof.
  induction l as [|a l IH]; simpl; [discriminate|].
  destruct (f a) as [[b|e']|] eqn:E; simpl; [|intros [= <-]; eauto|discriminate].
  destruct (mapF f l) as [[bs|e']|]; simpl; try discriminate.
  intros [= <-]. destruct IH as (x & Hx & Hfx); eauto.
Qed.

Lemma getFieldType_rec_throws (n : nat) :
  forall v e, getFieldType_rec n v = Some (Throw e) -> isTypeError e.
Proof.
  induction n as [|n IH]; intros v e; [discriminate|].
  destruct v as [ | | b | z | | z | s | elems | props];
    try (rewrite getFieldType_rec_primitive by discriminate; discriminate).
  rewrite getFieldType_rec_unfold.
  destruct (lookup "kind" props); try discriminate.
  kind_cases; try discriminate.
  - destruct (getFieldType_rec n (lookup "element" props)) as [[t|e']|] eqn:E;
      simpl; try discriminate.
    intros [= <-]. eauto.
  - destruct (getFieldType_rec n (lookup "key" props)) as [[t|e']|] eqn:E1;
      simpl; try discriminate; [|intros [= <-]; eauto].
    destruct (getFieldType_rec n (lookup "value" props)) as [[t'|e']|] eqn:E2;
      simpl; try discriminate.
    intros [= <-]. eauto.
  - destruct (lookup "members" props) as [ | | | | | | | elems | ];
      simpl; try (intros [= <-]; type_error).
    destruct (mapF (getFieldType_rec n) elems) as [[ts|e']|] eqn:E;
      simpl; try discriminate.
    intros [= <-]. apply mapF_throws in E as (x & _ & Hx). eauto.
Qed.

Lemma getFieldType_throws (v : value) (e : error) :
  getFieldType v = Throw e -> isTypeError e.
Proof.
  intros H. apply (getFieldType_rec_throws (S (height v)) v).
  rewrite getFieldType_rec_enough by lia. now rewrite H.
Qed.

Lemma foldM_throws_inv {A B} (f : A -> B -> completion A) (l : list B) :
  forall a e, foldM f a l = Throw e -> exists a' b, In b l /\ f a' b = Throw e.
Proof.
  induction l as [|b l IH]; simpl; intros a e; [discriminate|].
  destruct (f a b) as [a1|e1] eqn:E; simpl.
  - intros H. destruct (IH _ _ H) as (a' & b' & Hb & Hf). eauto.
  - intros [= <-]. eauto.
Qed.

Lemma fieldStep_throws (t : string) (acc : string * list relationship)
    (entry : string * value) (e : error) :
  fieldStep t acc entry = Throw e -> isTypeError e.
Proof.
  destruct acc as [m rels], entry as [f v]. unfold fieldStep.
  destruct (getFieldType v) as [ty|e'] eqn:E1; cbn [bind];
    [|intros [= <-]; now apply (getFieldType_throws v)].
  destruct (getProp v "kind") as [kind|e'] eqn:E2; cbn [bind];
    [|intros [= <-]; now apply (getProp_throws v "kind")].
  destruct (strictEq kind "id"); [|discriminate].
  destruct (getProp v "tableName") as [tn|e'] eqn:E3; cbn [bind];
    [|intros [= <-]; now apply (getProp_throws v "tableName")].
  destruct (truthy tn); discriminate.
Qed.

Lemma tableStep_throws (acc : string * list relationship) (entry : string * value)
    (e : error) :
  tableStep acc entry = Throw e -> isTypeError e.
Proof.
  destruct acc as [m rels], entry as [t def]. unfold tableStep.
  destruct (getProp def "validator") as [v|e'] eqn:E1; cbn [bind];
    [|intros [= <-]; now apply (getProp_throws def "validator")].
  destruct (getProp v "fields") as [fields|e'] eqn:E2; cbn [bind];
    [|intros [= <-]; now apply (getProp_throws v "fields")].
  destruct (truthy fields); cbn [bind]; [|discriminate].
  destruct (Object_entries fields) as [entries|e'] eqn:E3; cbn [bind];
    [|intros [= <-]; now apply (Object_entries_throws fields)].
  destruct (foldM (fieldStep t) (m ++ toUpperCase t ++ " {" ++ nl, rels) entries)
    as [acc1|e'] eqn:E4; cbn [bind]; [discriminate|].
  intros [= <-]. apply foldM_throws_inv in E4 as (a' & b & _ & Hb).
  now apply (fieldStep_throws t a' b).
Qed.

Lemma relStep_throws (m : string) (rel : relationship) (e : error) :
  relStep m rel = Throw e -> isTypeError e.
Proof.
  unfold relStep. destruct (to rel); try discriminate; intros [= <-]; type_error.
Qed.

(** The compiler itself throws nothing but a [TypeError] of the runtime. *)
Lemma compileSchema_throws (schema : value) (e : error) :
  compileSchema schema = Throw e -> isTypeError e.
Proof.
  unfold compileSchema.
  destruct (getProp schema "tables") as [tables|e'] eqn:E1; cbn [bind];
    [|intros [= <-]; now apply (getProp_throws schema "tables")].
  destruct (Object_entries tables) as [entries|e'] eqn:E2; cbn [bind];
    [|intros [= <-]; now apply (Object_entries_throws tables)].
  destruct (foldM tableStep ("erDiagram" ++ nl, []) entries) as [acc|e'] eqn:E3;
    cbn [bind].
  - destruct (foldM relStep (fst acc) (snd acc)) as [m'|e'] eqn:E4; cbn [bind];
      [discriminate|].
    intros [= <-]. apply foldM_throws_inv in E4 as (a' & b & _ & Hb).
    now apply (relStep_throws a' b).
  - intros [= <-]. apply foldM_throws_inv in E3 as (a' & b & _ & Hb).
    now apply (tableStep_throws a' b).
Qed.

(** How [generateMermaidFromSchema] rejects, by how the load settled. *)
Lemma generateMermaidFromSchema_rejects (env : Env) (path : string) (e : error) :
  generateMermaidFromSchema env path = Throw e ->
  match import env (schemaUrl env path) with
  | Normal schemaModule =>
      exists msg,
        msg <> ""
        /\ (schema <- getProp schemaModule "default";; compileSchema schema)
           = Throw (TypeError msg)
        /\ e = mkError "Error" ("Failed to load or parse schema: " ++ msg)
  | Throw (mkError name message) =>
      e = mkError "Error"
            ("Failed to load or parse schema: "
             ++ (if message =? "" then name else message))
  | Throw (thrownValue v) =>
      if nullish v
      then e = TypeError ("Cannot read properties of " ++ toStr v
                          ++ " (reading 'message')")
      else exists reason,
             e = mkError "Error" ("Failed to load or parse schema: " ++ reason)
  end.
Proof.
  unfold generateMermaidFromSchema.
  destruct (import env (schemaUrl env path)) as [schemaModule|[name message|v]];
    cbn [bind tryCatch].
  - destruct (getProp schemaModule "default") as [schema|e'] eqn:E1; cbn [bind tryCatch].
    + destruct (compileSchema schema) as [r|e'] eqn:E2; cbn [bind tryCatch];
        [discriminate|].
      destruct (compileSchema_throws schema e' E2) as (msg & -> & Hmsg).
      cbn [wrapError readMessage TypeError bind truthy].
      apply String.eqb_neq in Hmsg. rewrite Hmsg. cbn [negb toStr].
      intros [= <-]. exists msg. apply String.eqb_neq in Hmsg. auto.
    + destruct (getProp_throws _ _ _ E1) as (msg & -> & Hmsg).
      cbn [wrapError readMessage TypeError bind truthy].
      apply String.eqb_neq in Hmsg. rewrite Hmsg. cbn [negb toStr].
      intros [= <-]. exists msg. apply String.eqb_neq in Hmsg. auto.
  - cbn [wrapError readMessage bind truthy errorToString toStr].
    destruct (message =? ""); cbn [negb]; now intros [= <-].
  - unfold wrapError. cbn [readMessage].
    destruct v; cbn [getProp bind nullish toStr]; intros [= <-];
      try reflexivity; eexists; reflexivity.
Qed.



(** ** Printing the diagram once *)

Lemma generateMermaidFromSchema_rejects_Error (env : Env) (path : string) (e : error) :
  generateMermaidFromSchema env path = Throw e ->
  exists name message, e = mkError name message.
Proof.
  intros H. pose proof (generateMermaidFromSchema_rejects env path e H) as R.
  destruct (import env (schemaUrl env path)) as [m|[n msg|v]].
  - destruct R as (x & _ & _ & ->). eauto.
  - subst e. eauto.
  - destruct (nullish v); [subst e; unfold TypeError; eauto|].
    destruct R as (x & ->). eauto.
Qed.

(** X9. Print mode always ends with an exit code, whatever the loader
    did: reading [err.message] in its [catch] callback cannot throw,
    because [generateMermaidFromSchema] rejects only with [Error]
    instances.  The code is 0 exactly when the schema compiles, with the
    banner and the diagram on standard output and nothing on standard
    error; otherwise it is 1, with nothing on standard output and one red
    line carrying the message of the rejection on standard error. *)
Theorem X9_print_mode (env : Env) (path : string) :
  exists out err code,
    printDiagram env path = Normal (out, err, code)
    /\ match generateMermaidFromSchema env path with
       | Normal mermaid =>
           out = [nl ++ "--- Mermaid ER Diagram ---" ++ nl; mermaid]
           /\ err = [] /\ code = 0%Z
       | Throw e =>
           exists name message,
             e = mkError name message
             /\ out = []
             /\ err = [red (nl ++ "Error: " ++ message ++ nl)]
             /\ code = 1%Z
       end.
Proof.
  unfold printDiagram.
  destruct (generateMermaidFromSchema env path) as [m|e] eqn:E.
  - do 3 eexists. split; [reflexivity|]. now repeat split.
  - destruct (generateMermaidFromSchema_rejects_Error env path e E) as (n & msg & ->).
    cbn [readMessage bind toStr]. do 3 eexists. split; [reflexivity|].
    exists n, msg. now repeat split.
Qed.

(** ** The whole request callback *)

(** X11. The request callback answers with status 200 or 404 and no
    other status.  It leaves a request unanswered (its promise rejects
    with nothing written) in two cases only: the request URL cannot be
    parsed, or the path is [/schema] and the schema does not compile; a
    compiled schema is answered 200 [text/plain] with the diagram. *)
Theorem X11_handler_statuses (URL_pathname : string -> string -> completion string)
    (env : Env) (schemaPath : string) (readPublic : string -> option string)
    (url host : option string) :
  let parsed :=
    URL_pathname (match url with Some u => u | None => "" end)
                 ("http://" ++ match host with Some h => h | None => "undefined" end) in
  match handleRequest URL_pathname env schemaPath readPublic url host with
  | Normal r =>
      (statusCode r = 200%Z \/ statusCode r = 404%Z)
      /\ (parsed = Normal "/schema" ->
          exists mermaid,
            generateMermaidFromSchema env schemaPath = Normal mermaid
            /\ r = mkResponse 200 (Some "text/plain") (Text mermaid))
  | Throw e =>
      parsed = Throw e
      \/ (parsed = Normal "/schema"
          /\ generateMermaidFromSchema env schemaPath = Throw e)
  end.
Proof.
  intros parsed. unfold handleRequest. fold parsed.
  destruct parsed as [pathname|e]; cbn [bind]; [|now left].
  unfold requestHandler.
  destruct (String.eqb_spec pathname "/schema") as [->|Hs].
  - destruct (generateMermaidFromSchema env schemaPath) as [m|e]; cbn [bind].
    + split; [now left | eauto].
    + right. now split.
  - assert (Hn : Normal pathname <> Normal "/schema") by congruence.
    destruct (pathname =? "/ws-client.js"); [split; [now left | contradiction]|].
    destruct (pathname =? "/").
    { destruct (readPublic "index.html"); (split; [auto | contradiction]). }
    cbv zeta.
    destruct ((if startsWith pathname "/" then slice1 pathname else pathname) =? "");
      [split; [now right | contradiction]|].
    unfold serveStaticFile.
    destruct (readPublic (if startsWith pathname "/" then slice1 pathname else pathname));
      (split; [auto | contradiction]).
Qed.
